(** * Inkwell: the document store and its editing workflow

    A shallow embedding of the state handling of [src/App.tsx] and of the
    request/response functions of [src/services/geminiService.ts], over the
    data model of [src/types.ts].

    React state is one record, [AppState]; an event handler is a function on
    it.  A handler that awaits the AI gateway is split at its [await]: the
    part before it issues the request, the part after it ([*_resume]) takes
    the gateway's answer and the state as it is when the answer arrives.
    [Date.now()] and [Math.random()] are inputs of the handlers that read
    them. *)

From Stdlib Require Import String Ascii List ZArith Lia Bool.
From Stdlib Require Import DecimalString DecimalZ SpecFloat.
Import ListNotations.

Set Warnings "-register-all".

Local Open Scope string_scope.
Local Open Scope list_scope.

(** ** The JavaScript values and built-ins the code relies on *)

Module JS.

(** Line feed and double quote, which string literals cannot hold. *)
Definition LF : string := String (ascii_of_nat 10) EmptyString.
Definition DQ : string := String (ascii_of_nat 34) EmptyString.

(** What a rejected promise (a thrown exception) carries. *)
Inductive JSError : Type :=
| SyntaxError                      (* JSON.parse on malformed text *)
| TypeError                        (* property read on null or undefined *)
| GatewayError (message : string). (* generateContent rejected *)

(** The settlement of a promise. *)
Inductive Outcome (A : Type) : Type :=
| Fulfilled (a : A)
| Rejected (e : JSError).
Arguments Fulfilled {A} a.
Arguments Rejected {A} e.

Definition bind {A B : Type} (m : Outcome A) (k : A -> Outcome B) : Outcome B :=
  match m with
  | Fulfilled a => k a
  | Rejected e => Rejected e
  end.

Definition is_rejected {A : Type} (m : Outcome A) : bool :=
  match m with
  | Fulfilled _ => false
  | Rejected _ => true
  end.

(** A value as [JSON.parse] returns it ([JUndefined] is what reading a
    missing property gives).  Numbers are IEEE 754 doubles. *)
Inductive JSValue : Type :=
| JUndefined
| JNull
| JBool (b : bool)
| JNumber (x : spec_float)
| JString (s : string)
| JArray (items : list JSValue)
| JObject (props : list (string * JSValue)).

(** ToBoolean. *)
Definition truthy (v : JSValue) : bool :=
  match v with
  | JUndefined | JNull => false
  | JBool b => b
  | JNumber S754_nan | JNumber (S754_zero _) => false
  | JNumber _ => true
  | JString s => negb (s =? EmptyString)%string
  | JArray _ | JObject _ => true
  end.

Fixpoint lookup (k : string) (props : list (string * JSValue)) : JSValue :=
  match props with
  | [] => JUndefined
  | (k', v) :: rest => if (k' =? k)%string then v else lookup k rest
  end.

(** [v.k] for a key [k] that no array, string, number or boolean has of
    its own ("found", "type", "name", "description"): reading it from
    [null] or [undefined] throws a TypeError. *)
Definition get (v : JSValue) (k : string) : Outcome JSValue :=
  match v with
  | JUndefined | JNull => Rejected TypeError
  | JObject props => Fulfilled (lookup k props)
  | _ => Fulfilled JUndefined
  end.

(** [v === 'lit'] *)
Definition strict_eq_string (v : JSValue) (lit : string) : bool :=
  match v with
  | JString s => (s =? lit)%string
  | _ => false
  end.

(** [s || d] for an optional string: the empty string is falsy too. *)
Definition or_else (s : option string) (d : string) : string :=
  match s with
  | None => d
  | Some s' => if (s' =? EmptyString)%string then d else s'
  end.

(** Array.prototype.join on an array of strings. *)
Fixpoint Array_join (sep : string) (xs : list string) : string :=
  match xs with
  | [] => EmptyString
  | [x] => x
  | x :: rest => (x ++ sep ++ Array_join sep rest)%string
  end.

(** ToString of a value, as a template literal applies it; [number] is
    Number::toString on doubles.  An array prints as the join of its items
    by commas, a plain object as [[object Object]]. *)
Fixpoint ToString (number : spec_float -> string) (v : JSValue) : string :=
  match v with
  | JUndefined => "undefined"
  | JNull => "null"
  | JBool true => "true"
  | JBool false => "false"
  | JNumber x => number x
  | JString s => s
  | JArray items =>
      Array_join ","
        (map (fun item =>
                match item with
                | JUndefined | JNull => EmptyString
                | _ => ToString number item
                end) items)
  | JObject _ => "[object Object]"
  end.

(** Array.prototype.join on an array of values: undefined and null give
    the empty string, every other item its ToString. *)
Definition Array_join_values (number : spec_float -> string) (sep : string)
    (xs : list JSValue) : string :=
  Array_join sep
    (map (fun x =>
            match x with
            | JUndefined | JNull => EmptyString
            | _ => ToString number x
            end) xs).

(** The string an integer-valued Number concatenates as, such as the
    milliseconds [Date.now()] returns: its decimal digits. *)
Definition Number_toString (n : Z) : string :=
  NilZero.string_of_int (Z.to_int n).

(** [text.length]: the number of code units of the string. *)
Definition length (s : string) : Z := Z.of_nat (String.length s).

End JS.

Import JS.

(** ** src/types.ts *)

Record Beat : Type := mkBeat {
  b_id : string;
  b_title : string;
  b_description : string;
  b_draft : option string;
  b_completed : option bool
}.

Record Chapter : Type := mkChapter {
  ch_id : string;
  ch_title : string;
  ch_beats : list Beat
}.

Record LoreEntry : Type := mkLoreEntry {
  lore_id : string;
  lore_category : string;
  lore_content : string
}.

(** [name] and [description] are declared [string]; the "Inscribe" button
    writes [data.name] and [data.description] of a suggestion into them
    unchecked ([data: any]), so they hold a JavaScript value, a string
    when everything is well typed.  The same goes for [Location]. *)
Record Character : Type := mkCharacter {
  c_id : string;
  c_name : JSValue;
  c_role : string;
  c_description : JSValue;
  c_traits : list string;
  c_imageUrl : option string;
  c_rationale : option string
}.

Record Location : Type := mkLocation {
  l_id : string;
  l_name : JSValue;
  l_atmosphere : string;
  l_description : JSValue;
  l_imageUrl : option string;
  l_rationale : option string
}.

Record WorldSettings : Type := mkWorldSettings {
  genre : string;
  fantasyLevel : Z;
  techLevel : Z;
  tone : string;
  proseStyle : string;
  language : string;
  criticismLevel : Z
}.

(** [{ role: 'user' | 'model', text }] *)
Inductive Role : Type := user | model.

Record ChatMessage : Type := mkChatMessage {
  msg_role : Role;
  msg_text : string
}.

(** ['character' | 'location'] *)
Inductive EntityType : Type := character | location.

(** ** src/services/geminiService.ts *)

Module GeminiService.

(** The [contents] of a request: a prompt string (analyzePlot,
    extractFromText), a list of turns (chatWithInkwell) or a list of text
    parts (visualizeAsset). *)
Inductive Contents : Type :=
| Prompt (text : string)
| Turns (messages : list ChatMessage)
| Parts (texts : list string).

(** The argument of [ai.models.generateContent].  The response schemas are
    constants of the service and are left out. *)
Record GenerateContentRequest : Type := mkRequest {
  rq_model : string;
  rq_contents : Contents;
  rq_systemInstruction : option string;
  rq_responseMimeType : option string;
  rq_aspectRatio : option string
}.

(** A part of the first candidate: [inlineData.data] when it has any. *)
Record Part : Type := mkPart {
  inlineData : option string
}.

(** What [generateContent] resolves to: [response.text] (possibly
    undefined) and [response.candidates?.[0]?.content?.parts || []]. *)
Record GenerateContentResponse : Type := mkResponse {
  rs_text : option string;
  rs_parts : list Part
}.

(** The AI gateway: every request is answered or rejected. *)
Definition Gateway : Type :=
  GenerateContentRequest -> Outcome GenerateContentResponse.

(** What the extraction schema of [extractFromText] describes, each
    object read at the fields of the entity it becomes.  Beside the fields
    of the schema an object may carry the other fields of its interface,
    which the spread of the import keeps: an id (always overwritten), a
    draft and a completed flag on a beat, an image and a rationale on a
    character or a location. *)
Record ExtractedBeat : Type := mkExtractedBeat {
  xb_id : option string;
  xb_title : string;
  xb_description : string;
  xb_draft : option string;
  xb_completed : option bool
}.

Record ExtractedChapter : Type := mkExtractedChapter {
  xch_id : option string;
  xch_title : string;
  xch_beats : list ExtractedBeat
}.

Record ExtractedCharacter : Type := mkExtractedCharacter {
  xc_id : option string;
  xc_name : JSValue;
  xc_role : string;
  xc_description : JSValue;
  xc_imageUrl : option string;
  xc_rationale : option string
}.

Record ExtractedLocation : Type := mkExtractedLocation {
  xl_id : option string;
  xl_name : JSValue;
  xl_atmosphere : string;
  xl_description : JSValue;
  xl_imageUrl : option string;
  xl_rationale : option string
}.

(** The three properties are optional: the caller tests each one. *)
Record Extraction : Type := mkExtraction {
  x_chapters : option (list ExtractedChapter);
  x_characters : option (list ExtractedCharacter);
  x_locations : option (list ExtractedLocation)
}.

(** What [JSON.parse] hands to the caller of [extractFromText], before the
    import has read it: no field of the schema is required, so a chapter
    may come without its [beats] array, and the text [null] parses to
    [null].  (A number, a string, a boolean or an array has none of the
    three properties and reads like the empty object.) *)
Record ParsedChapter : Type := mkParsedChapter {
  pch_id : option string;
  pch_title : string;
  pch_beats : option (list ExtractedBeat)
}.

Record ParsedObject : Type := mkParsedObject {
  p_chapters : option (list ParsedChapter);
  p_characters : option (list ExtractedCharacter);
  p_locations : option (list ExtractedLocation)
}.

Inductive ParsedExtraction : Type :=
| ParsedNull
| Parsed (object : ParsedObject).

(** The built-ins of the platform that the records above do not determine:
    [JSON.parse] ([None] when it throws a SyntaxError), [JSON.parse] read at
    the shape of the extraction schema, [JSON.stringify] of the chapter
    array (the text depends on the key order of the objects), and
    Number::toString on doubles. *)
Record Platform : Type := mkPlatform {
  JSON_parse : string -> option JSValue;
  JSON_parse_extraction : string -> option ParsedExtraction;
  JSON_stringify : list Chapter -> string;
  Number_prototype_toString : spec_float -> string
}.

Section Service.

Variable P : Platform.

Definition parse (text : string) : Outcome JSValue :=
  match JSON_parse P text with
  | Some v => Fulfilled v
  | None => Rejected SyntaxError
  end.

Definition parse_extraction (text : string) : Outcome ParsedExtraction :=
  match JSON_parse_extraction P text with
  | Some v => Fulfilled v
  | None => Rejected SyntaxError
  end.

Definition getContext (settings : WorldSettings) (lore : list LoreEntry) : string :=
  (LF ++ "WORLD CONTEXT (LANGUAGE: " ++ language settings ++ "):" ++ LF
   ++ "- Genre: " ++ genre settings ++ LF
   ++ "- Tone: " ++ tone settings ++ LF
   ++ "- Prose Style: " ++ proseStyle settings ++ LF
   ++ "- Lore: "
   ++ Array_join LF
        (map (fun l => "[" ++ lore_category l ++ "]: " ++ lore_content l) lore)
   ++ LF)%string.

(** [analyzePlot]: the request it sends.  The characters and the locations
    are parameters of the function and do not enter the prompt. *)
Definition analyzePlot_request (chapters : list Chapter)
    (characters : list Character) (locations : list Location)
    (settings : WorldSettings) (lore : list LoreEntry) : GenerateContentRequest :=
  let prompt :=
    ("You are Inkwell. Analyze story for consistency and propose additions."
     ++ LF ++ "  " ++ getContext settings lore
     ++ LF ++ "  CHAPTERS: " ++ JSON_stringify P chapters)%string in
  {| rq_model := "gemini-3-pro-preview";
     rq_contents := Prompt prompt;
     rq_systemInstruction := None;
     rq_responseMimeType := Some "application/json";
     rq_aspectRatio := None |}.

(** [analyzePlot] after its await: [JSON.parse(response.text || "{}")]. *)
Definition analyzePlot_response (r : Outcome GenerateContentResponse) : Outcome JSValue :=
  bind r (fun response => parse (or_else (rs_text response) "{}")).

Definition analyzePlot (ai : Gateway) (chapters : list Chapter)
    (characters : list Character) (locations : list Location)
    (settings : WorldSettings) (lore : list LoreEntry) : Outcome JSValue :=
  analyzePlot_response
    (ai (analyzePlot_request chapters characters locations settings lore)).

(** [chatWithInkwell]: the chapters are a parameter and are not used. *)
Definition chatWithInkwell_request (history : list ChatMessage) (message : string)
    (settings : WorldSettings) (lore : list LoreEntry) (chapters : list Chapter)
    : GenerateContentRequest :=
  {| rq_model := "gemini-3-pro-preview";
     rq_contents := Turns (history ++ [mkChatMessage user message]);
     rq_systemInstruction :=
       Some ("You are Inkwell. " ++ getContext settings lore)%string;
     rq_responseMimeType := None;
     rq_aspectRatio := None |}.

Definition chatWithInkwell_response (r : Outcome GenerateContentResponse)
    : Outcome (option string) :=
  bind r (fun response => Fulfilled (rs_text response)).

(** The entity [visualizeAsset] is given, read at the type its first
    argument names. *)
Inductive Entity : Type :=
| ECharacter (c : Character)
| ELocation (l : Location).

Definition entity_name (e : Entity) : JSValue :=
  match e with ECharacter c => c_name c | ELocation l => l_name l end.

Definition entity_description (e : Entity) : JSValue :=
  match e with ECharacter c => c_description c | ELocation l => l_description l end.

(** A substitution of a template literal. *)
Definition interpolate (v : JSValue) : string :=
  ToString (Number_prototype_toString P) v.

Definition visualizeAsset_request (type : EntityType) (data : Entity)
    (settings : WorldSettings) : GenerateContentRequest :=
  let prompt :=
    match type with
    | character =>
        ("Portrait: " ++ interpolate (entity_name data) ++ ". "
         ++ interpolate (entity_description data))%string
    | location =>
        ("Setting: " ++ interpolate (entity_name data) ++ ". "
         ++ interpolate (entity_description data))%string
    end in
  {| rq_model := "gemini-2.5-flash-image";
     rq_contents := Parts [prompt];
     rq_systemInstruction := None;
     rq_responseMimeType := None;
     rq_aspectRatio :=
       Some (match type with character => "3:4" | location => "16:9" end) |}.

(** The loop over the parts: the first one with inline data gives the
    URL, none gives [null]. *)
Fixpoint first_image (parts : list Part) : option string :=
  match parts with
  | [] => None
  | part :: rest =>
      match inlineData part with
      | Some data => Some ("data:image/png;base64," ++ data)%string
      | None => first_image rest
      end
  end.

Definition visualizeAsset_response (r : Outcome GenerateContentResponse)
    : Outcome (option string) :=
  bind r (fun response => Fulfilled (first_image (rs_parts response))).

Definition extractFromText_request (text : string) (settings : WorldSettings)
    : GenerateContentRequest :=
  {| rq_model := "gemini-3-pro-preview";
     rq_contents :=
       Prompt ("Extract chapters, beats, characters, and locations from: " ++ text)%string;
     rq_systemInstruction := None;
     rq_responseMimeType := Some "application/json";
     rq_aspectRatio := None |}.

Definition extractFromText_response (r : Outcome GenerateContentResponse)
    : Outcome ParsedExtraction :=
  bind r (fun response => parse_extraction (or_else (rs_text response) "{}")).

(** [verifyBeatCompletion] (lines 15-46), up to the await: prose that is
    empty or shorter than 50 gives [false] with no request. *)
Definition verifyBeatCompletion_request (beat : Beat) (prose : string)
    (settings : WorldSettings) : GenerateContentRequest :=
  let prompt :=
    ("Act as a narrative auditor. " ++ LF
     ++ "  BEAT GOAL: " ++ b_title beat ++ " - " ++ b_description beat ++ LF
     ++ "  CURRENT PROSE: " ++ prose ++ LF
     ++ "  " ++ LF
     ++ "  TASK: Has the author successfully written the events described in the Beat Goal? "
     ++ LF
     ++ "  Be lenient but ensure the core event occurred." ++ LF
     ++ "  Return JSON: {" ++ DQ ++ "completed" ++ DQ ++ ": true/false}")%string in
  {| rq_model := "gemini-3-flash-preview";
     rq_contents := Prompt prompt;
     rq_systemInstruction := None;
     rq_responseMimeType := Some "application/json";
     rq_aspectRatio := None |}.

Definition verifyBeatCompletion_start (beat : Beat) (prose : string)
    (settings : WorldSettings) : option GenerateContentRequest :=
  if (prose =? EmptyString)%string || (JS.length prose <? 50)%Z
  then None
  else Some (verifyBeatCompletion_request beat prose settings).

(** The body of its [try] from the await on: [!!result.completed]. *)
Definition verifyBeatCompletion_try (r : Outcome GenerateContentResponse)
    : Outcome bool :=
  bind r (fun response =>
  bind (parse (or_else (rs_text response) "{}")) (fun result =>
  bind (get result "completed") (fun completed =>
  Fulfilled (truthy completed)))).

(** [catch (e) { return false; }] *)
Definition verifyBeatCompletion_response (r : Outcome GenerateContentResponse)
    : Outcome bool :=
  match verifyBeatCompletion_try r with
  | Fulfilled b => Fulfilled b
  | Rejected _ => Fulfilled false
  end.

(** The whole call, with the requests it issued. *)
Definition verifyBeatCompletion (ai : Gateway) (beat : Beat) (prose : string)
    (settings : WorldSettings) : Outcome bool * list GenerateContentRequest :=
  match verifyBeatCompletion_start beat prose settings with
  | None => (Fulfilled false, [])
  | Some request => (verifyBeatCompletion_response (ai request), [request])
  end.

(** [consultCoWriter] (lines 48-87).  [stringify_names] is
    [JSON.stringify] on the array of the characters' names. *)
Definition consultCoWriter_request (stringify_names : list JSValue -> string)
    (currentBeat : Beat) (nextBeat : option Beat) (characters : list Character)
    (settings : WorldSettings) (lore : list LoreEntry) (requestProse : bool)
    : GenerateContentRequest :=
  let prompt :=
    ("You are Inkwell, a master co-writer. " ++ LF
     ++ "  CURRENT BEAT GOAL: " ++ b_title currentBeat ++ " - "
     ++ b_description currentBeat ++ LF
     ++ "  CURRENT PROSE: " ++ or_else (b_draft currentBeat) "(Empty)" ++ LF
     ++ "  NEXT INTENDED PLOT POINT: "
     ++ match nextBeat with
        | Some nb => b_title nb ++ " - " ++ b_description nb
        | None => "End of Story"
        end ++ LF
     ++ "  " ++ LF
     ++ "  CONTEXT: " ++ getContext settings lore ++ LF
     ++ "  CHARACTERS: " ++ stringify_names (map c_name characters) ++ LF
     ++ LF
     ++ "  TASK: " ++ LF
     ++ "  " ++ (if requestProse then "Write the next 3-5 sentences."
                 else "Provide bridge advice.") ++ LF
     ++ "  Return JSON: {" ++ DQ ++ "advice" ++ DQ ++ ": " ++ DQ ++ "..." ++ DQ
     ++ ", " ++ DQ ++ "prose" ++ DQ ++ ": " ++ DQ ++ "..." ++ DQ ++ "}")%string in
  {| rq_model := "gemini-3-pro-preview";
     rq_contents := Prompt prompt;
     rq_systemInstruction := None;
     rq_responseMimeType := Some "application/json";
     rq_aspectRatio := None |}.

(** From the await on: there is no [try]. *)
Definition consultCoWriter_response (r : Outcome GenerateContentResponse)
    : Outcome JSValue :=
  bind r (fun response => parse (or_else (rs_text response) "{}")).

End Service.

(** *** generateBeatTitle and generateChapterTitle (lines 170-180) *)

Definition is_quote (c : ascii) : bool := Ascii.eqb c (ascii_of_nat 34).

(** The alternative [quote-at-the-end] of the pattern: a quote that is the
    last code unit is removed. *)
Fixpoint drop_last_quote (s : string) : string :=
  match s with
  | EmptyString => EmptyString
  | String c EmptyString => if is_quote c then EmptyString else s
  | String c rest => String c (drop_last_quote rest)
  end.

(** [.replace(/^"|"$/g, '')], the pattern being a quote at the start or a
    quote at the end: the scan removes a quote that is the first code unit
    and goes on behind it, where only the end can still match. *)
Definition strip_quotes (s : string) : string :=
  match s with
  | EmptyString => EmptyString
  | String c rest => if is_quote c then drop_last_quote rest else drop_last_quote s
  end.

Section Titles.

(** [String.prototype.trim]. *)
Variable String_trim : string -> string.

Definition generateBeatTitle_request (description : string) (settings : WorldSettings)
    : GenerateContentRequest :=
  {| rq_model := "gemini-3-flash-preview";
     rq_contents := Prompt ("Title for: " ++ description)%string;
     rq_systemInstruction := None;
     rq_responseMimeType := None;
     rq_aspectRatio := None |}.

Definition generateChapterTitle_request (beats : list Beat) (settings : WorldSettings)
    : GenerateContentRequest :=
  {| rq_model := "gemini-3-flash-preview";
     rq_contents :=
       Prompt ("Title for beats: " ++ Array_join ", " (map b_title beats))%string;
     rq_systemInstruction := None;
     rq_responseMimeType := None;
     rq_aspectRatio := None |}.

(** Both functions from the await on: the text, or the empty string, is
    trimmed and stripped of its quotes. *)
Definition generateTitle_response (r : Outcome GenerateContentResponse)
    : Outcome string :=
  bind r (fun response =>
    Fulfilled (strip_quotes (String_trim (or_else (rs_text response) EmptyString)))).

End Titles.

End GeminiService.

Import GeminiService.

(** ** src/App.tsx *)

Module App.

Inductive Tab : Type :=
| TabWrite | TabPlot | TabCharacters | TabLocations | TabLore | TabAnalysis
| TabSettings.

(** [{type, data}] as [sentinelCheck] stores it: both come out of the
    gateway's JSON unchecked. *)
Record SuggestedEntity : Type := mkSuggestedEntity {
  se_type : JSValue;
  se_data : JSValue
}.

Record FocusedEntity : Type := mkFocusedEntity {
  fe_type : EntityType;
  fe_id : string
}.

(** [StoryAnalysis | null]: [setAnalysis] stores whatever [analyzePlot]
    parsed. *)
Definition StoryAnalysis : Type := JSValue.

(** The [useState] cells of the component that carry data. *)
Record AppState : Type := mkAppState {
  activeTab : Tab;
  chapters : list Chapter;
  characters : list Character;
  locations : list Location;
  lore : list LoreEntry;
  analysis : option StoryAnalysis;
  loading : bool;
  scratchpadText : string;
  suggestedEntity : option SuggestedEntity;
  focusedEntity : option FocusedEntity;
  genId : option string;
  settings : WorldSettings
}.

Definition initialSettings : WorldSettings :=
  {| genre := "Epic Fantasy"; fantasyLevel := 50; techLevel := 10;
     tone := "Serious"; proseStyle := "Lyrical"; language := "English";
     criticismLevel := 55 |}.

Definition initialState : AppState :=
  {| activeTab := TabWrite; chapters := []; characters := []; locations := [];
     lore := []; analysis := None; loading := false;
     scratchpadText := EmptyString; suggestedEntity := None;
     focusedEntity := None; genId := None; settings := initialSettings |}.

Definition setActiveTab (v : Tab) (st : AppState) : AppState :=
  mkAppState v (chapters st) (characters st) (locations st) (lore st)
    (analysis st) (loading st) (scratchpadText st) (suggestedEntity st)
    (focusedEntity st) (genId st) (settings st).

Definition setChapters (v : list Chapter) (st : AppState) : AppState :=
  mkAppState (activeTab st) v (characters st) (locations st) (lore st)
    (analysis st) (loading st) (scratchpadText st) (suggestedEntity st)
    (focusedEntity st) (genId st) (settings st).

Definition setCharacters (v : list Character) (st : AppState) : AppState :=
  mkAppState (activeTab st) (chapters st) v (locations st) (lore st)
    (analysis st) (loading st) (scratchpadText st) (suggestedEntity st)
    (focusedEntity st) (genId st) (settings st).

Definition setLocations (v : list Location) (st : AppState) : AppState :=
  mkAppState (activeTab st) (chapters st) (characters st) v (lore st)
    (analysis st) (loading st) (scratchpadText st) (suggestedEntity st)
    (focusedEntity st) (genId st) (settings st).

Definition setAnalysis (v : option StoryAnalysis) (st : AppState) : AppState :=
  mkAppState (activeTab st) (chapters st) (characters st) (locations st)
    (lore st) v (loading st) (scratchpadText st) (suggestedEntity st)
    (focusedEntity st) (genId st) (settings st).

Definition setLoading (v : bool) (st : AppState) : AppState :=
  mkAppState (activeTab st) (chapters st) (characters st) (locations st)
    (lore st) (analysis st) v (scratchpadText st) (suggestedEntity st)
    (focusedEntity st) (genId st) (settings st).

Definition setScratchpadText (v : string) (st : AppState) : AppState :=
  mkAppState (activeTab st) (chapters st) (characters st) (locations st)
    (lore st) (analysis st) (loading st) v (suggestedEntity st)
    (focusedEntity st) (genId st) (settings st).

Definition setSuggestedEntity (v : option SuggestedEntity) (st : AppState) : AppState :=
  mkAppState (activeTab st) (chapters st) (characters st) (locations st)
    (lore st) (analysis st) (loading st) (scratchpadText st) v
    (focusedEntity st) (genId st) (settings st).

Definition setFocusedEntity (v : option FocusedEntity) (st : AppState) : AppState :=
  mkAppState (activeTab st) (chapters st) (characters st) (locations st)
    (lore st) (analysis st) (loading st) (scratchpadText st)
    (suggestedEntity st) v (genId st) (settings st).

Definition setGenId (v : option string) (st : AppState) : AppState :=
  mkAppState (activeTab st) (chapters st) (characters st) (locations st)
    (lore st) (analysis st) (loading st) (scratchpadText st)
    (suggestedEntity st) (focusedEntity st) v (settings st).

(** *** triggerVisual (lines 85-98) *)

Definition find_entity (type : EntityType) (id : string) (st : AppState) : option Entity :=
  match type with
  | character =>
      option_map ECharacter (find (fun c => (c_id c =? id)%string) (characters st))
  | location =>
      option_map ELocation (find (fun l => (l_id l =? id)%string) (locations st))
  end.

(** Up to the await: nothing happens when the entity is not found. *)
Definition triggerVisual_start (P : Platform) (type : EntityType) (id : string)
    (st : AppState) : AppState * option GenerateContentRequest :=
  match find_entity type id st with
  | None => (st, None)
  | Some entity =>
      (setGenId (Some id) st,
       Some (visualizeAsset_request P type entity (settings st)))
  end.

(** [prev => prev.map(c => c.id === id ? { ...c, imageUrl: url } : c)] *)
Definition set_character_image (id url : string) (prev : list Character) : list Character :=
  map (fun c =>
         if (c_id c =? id)%string
         then mkCharacter (c_id c) (c_name c) (c_role c) (c_description c)
                (c_traits c) (Some url) (c_rationale c)
         else c) prev.

Definition set_location_image (id url : string) (prev : list Location) : list Location :=
  map (fun l =>
         if (l_id l =? id)%string
         then mkLocation (l_id l) (l_name l) (l_atmosphere l) (l_description l)
                (Some url) (l_rationale l)
         else l) prev.

(** From the await on: [st] is the state when the gateway answers.  The
    [finally] clears [genId] and lets a rejection through. *)
Definition triggerVisual_resume (type : EntityType) (id : string)
    (r : Outcome GenerateContentResponse) (st : AppState) : AppState * Outcome unit :=
  match visualizeAsset_response r with
  | Fulfilled url =>
      let st1 :=
        match url with
        | Some u =>
            match type with
            | character => setCharacters (set_character_image id u (characters st)) st
            | location => setLocations (set_location_image id u (locations st)) st
            end
        | None => st
        end in
      (setGenId None st1, Fulfilled tt)
  | Rejected e => (setGenId None st, Rejected e)
  end.

(** The "Banish Entry" button of the focused entity (lines 192-196). *)
Definition banishEntry (st : AppState) : AppState :=
  match focusedEntity st with
  | None => st
  | Some fe =>
      let st1 :=
        match fe_type fe with
        | character =>
            setCharacters
              (filter (fun c => negb (c_id c =? fe_id fe)%string) (characters st)) st
        | location =>
            setLocations
              (filter (fun l => negb (l_id l =? fe_id fe)%string) (locations st)) st
        end in
      setFocusedEntity None st1
  end.

(** *** handleFileUpload (lines 100-125) *)

(** [Math.random()] as the code uses it: the [n]-th draw, given by the
    text it concatenates as. *)
Definition RandomSource : Type := nat -> string.

(** [ch.beats.map(b => ({ ...b, id: 'b-' + Math.random() }))], drawing from
    the [n]-th draw on; the second component is the next unused draw. *)
Fixpoint rekey_beats (rand : RandomSource) (n : nat) (bs : list ExtractedBeat)
    : list Beat * nat :=
  match bs with
  | [] => ([], n)
  | b :: rest =>
      let beat := mkBeat ("b-" ++ rand n)%string (xb_title b) (xb_description b)
                    (xb_draft b) (xb_completed b) in
      let (beats, n') := rekey_beats rand (S n) rest in
      (beat :: beats, n')
  end.

(** [extracted.chapters.map(ch => ({ ...ch, id: 'ch-' + Math.random(),
    beats: ... }))]: the chapter's id is drawn before its beats' ids. *)
Fixpoint rekey_chapters (rand : RandomSource) (n : nat) (chs : list ExtractedChapter)
    : list Chapter * nat :=
  match chs with
  | [] => ([], n)
  | ch :: rest =>
      let id := ("ch-" ++ rand n)%string in
      let (beats, n1) := rekey_beats rand (S n) (xch_beats ch) in
      let (chapters, n2) := rekey_chapters rand n1 rest in
      (mkChapter id (xch_title ch) beats :: chapters, n2)
  end.

(** [extracted.characters.map(c => ({ ...c, id: 'c-' + Math.random(),
    traits: [] }))] *)
Fixpoint rekey_characters (rand : RandomSource) (n : nat) (cs : list ExtractedCharacter)
    : list Character * nat :=
  match cs with
  | [] => ([], n)
  | c :: rest =>
      let ch := mkCharacter ("c-" ++ rand n)%string (xc_name c) (xc_role c)
                  (xc_description c) [] (xc_imageUrl c) (xc_rationale c) in
      let (characters, n') := rekey_characters rand (S n) rest in
      (ch :: characters, n')
  end.

(** [extracted.locations.map(l => ({ ...l, id: 'l-' + Math.random() }))] *)
Fixpoint rekey_locations (rand : RandomSource) (n : nat) (ls : list ExtractedLocation)
    : list Location * nat :=
  match ls with
  | [] => ([], n)
  | l :: rest =>
      let loc := mkLocation ("l-" ++ rand n)%string (xl_name l) (xl_atmosphere l)
                   (xl_description l) (xl_imageUrl l) (xl_rationale l) in
      let (locations, n') := rekey_locations rand (S n) rest in
      (loc :: locations, n')
  end.

(** What the import makes of an extraction: the re-keyed chapters,
    characters and locations (for the properties it has), drawn in that
    order. *)
Definition imported_chapters (rand : RandomSource) (extracted : Extraction)
    : option (list Chapter) * nat :=
  match x_chapters extracted with
  | Some chs => let (r, n) := rekey_chapters rand 0 chs in (Some r, n)
  | None => (None, 0%nat)
  end.

Definition imported_characters (rand : RandomSource) (extracted : Extraction)
    : option (list Character) * nat :=
  let n0 := snd (imported_chapters rand extracted) in
  match x_characters extracted with
  | Some cs => let (r, n) := rekey_characters rand n0 cs in (Some r, n)
  | None => (None, n0)
  end.

Definition imported_locations (rand : RandomSource) (extracted : Extraction)
    : option (list Location) * nat :=
  let n0 := snd (imported_characters rand extracted) in
  match x_locations extracted with
  | Some ls => let (r, n) := rekey_locations rand n0 ls in (Some r, n)
  | None => (None, n0)
  end.

(** Lines 110-118, the merge of an extraction into the store:
    [setChapters(list)] for the chapters, [setCharacters(prev => [...prev,
    ...list])] and [setLocations(prev => [...prev, ...list])] for the
    other two, then [setActiveTab('write')]. *)
Definition importExtracted (rand : RandomSource) (extracted : Extraction)
    (st : AppState) : AppState :=
  let st1 :=
    match fst (imported_chapters rand extracted) with
    | Some chs => setChapters chs st
    | None => st
    end in
  let st2 :=
    match fst (imported_characters rand extracted) with
    | Some cs => setCharacters (characters st1 ++ cs) st1
    | None => st1
    end in
  let st3 :=
    match fst (imported_locations rand extracted) with
    | Some ls => setLocations (locations st2 ++ ls) st2
    | None => st2
    end in
  setActiveTab TabWrite st3.

(** Up to the await: [file] is the text of the chosen file, if any. *)
Definition handleFileUpload_start (file : option string) (st : AppState)
    : AppState * option GenerateContentRequest :=
  match file with
  | None => (st, None)
  | Some text =>
      if (text =? EmptyString)%string then (st, None)
      else (setLoading true st, Some (extractFromText_request text (settings st)))
  end.

(** [ch.beats.map] of line 113 throws a TypeError at the first chapter
    that has no [beats] array.  The callback runs inside the argument of
    [setChapters], so the throw comes before any setter has run. *)
Fixpoint chapters_with_beats (chs : list ParsedChapter)
    : Outcome (list ExtractedChapter) :=
  match chs with
  | [] => Fulfilled []
  | ch :: rest =>
      match pch_beats ch with
      | None => Rejected TypeError
      | Some beats =>
          bind (chapters_with_beats rest) (fun rest' =>
          Fulfilled (mkExtractedChapter (pch_id ch) (pch_title ch) beats :: rest'))
      end
  end.

(** What the import can read of the parsed value without throwing:
    [extracted.chapters] of line 110 throws a TypeError on [null], the map
    of lines 111-114 on a chapter without beats.  The maps over the
    characters and the locations do not throw. *)
Definition read_extraction (parsed : ParsedExtraction) : Outcome Extraction :=
  match parsed with
  | ParsedNull => Rejected TypeError
  | Parsed object =>
      match p_chapters object with
      | None =>
          Fulfilled (mkExtraction None (p_characters object) (p_locations object))
      | Some chs =>
          bind (chapters_with_beats chs) (fun chs' =>
          Fulfilled (mkExtraction (Some chs') (p_characters object) (p_locations object)))
      end
  end.

(** From the await on; the [finally] clears [loading] and lets through a
    rejection of [extractFromText] and a TypeError of the import alike. *)
Definition handleFileUpload_resume (P : Platform) (rand : RandomSource)
    (r : Outcome GenerateContentResponse) (st : AppState) : AppState * Outcome unit :=
  match bind (extractFromText_response P r) read_extraction with
  | Fulfilled extracted =>
      (setLoading false (importExtracted rand extracted st), Fulfilled tt)
  | Rejected e => (setLoading false st, Rejected e)
  end.

(** *** runAnalysis (lines 127-141) *)

(** With chapters: per chapter the line [Chapter: <title>] followed by the
    drafts of its beats (an absent or empty draft as the empty string), one
    per line; the chapters joined by an empty line.  Without chapters: the
    scratchpad. *)
Definition manuscriptSnapshot (st : AppState) : string :=
  match chapters st with
  | [] => scratchpadText st
  | _ =>
      Array_join (LF ++ LF)%string
        (map (fun c =>
                ("Chapter: " ++ ch_title c ++ LF
                 ++ Array_join LF
                      (map (fun b => or_else (b_draft b) EmptyString) (ch_beats c)))%string)
             (chapters st))
  end.

(** Up to the await.  The snapshot is computed and the call that follows
    does not take it. *)
Definition runAnalysis_start (P : Platform) (st : AppState)
    : AppState * GenerateContentRequest :=
  let st1 := setLoading true st in
  let snapshot := manuscriptSnapshot st in
  (st1,
   analyzePlot_request P (chapters st) (characters st) (locations st)
     (settings st) (lore st)).

(** From the await on: [try { ...; setAnalysis(result) } finally {
    setLoading(false) }], with no [catch]. *)
Definition runAnalysis_resume (P : Platform) (r : Outcome GenerateContentResponse)
    (st : AppState) : AppState * Outcome unit :=
  match analyzePlot_response P r with
  | Fulfilled result => (setLoading false (setAnalysis (Some result) st), Fulfilled tt)
  | Rejected e => (setLoading false st, Rejected e)
  end.

(** The whole call when nothing else happens during the await: the final
    state and the settlement of the promise [runAnalysis] returns. *)
Definition runAnalysis (P : Platform) (ai : Gateway) (st : AppState)
    : AppState * Outcome unit :=
  let (st1, request) := runAnalysis_start P st in
  runAnalysis_resume P (ai request) st1.

(** *** sentinelCheck (lines 148-160) *)

(** [text.length > 50 && text.length % 350 < 20] *)
Definition sentinel_guard (text : string) : bool :=
  (50 <? JS.length text)%Z && (Z.rem (JS.length text) 350 <? 20)%Z.

Definition sentinel_message (P : Platform) (st : AppState) : string :=
  let existingNames :=
    Array_join_values (Number_prototype_toString P) ", "
      (map c_name (characters st) ++ map l_name (locations st)) in
  ("Identify a new character or place from this text not in [" ++ existingNames
   ++ "]. JSON: {" ++ DQ ++ "found" ++ DQ ++ ": true, "
   ++ DQ ++ "type" ++ DQ ++ ": " ++ DQ ++ "character" ++ DQ ++ "|"
   ++ DQ ++ "location" ++ DQ ++ ", "
   ++ DQ ++ "name" ++ DQ ++ ": " ++ DQ ++ "..." ++ DQ ++ ", "
   ++ DQ ++ "description" ++ DQ ++ ": " ++ DQ ++ "..." ++ DQ ++ "}")%string.

(** Up to the await: the request the detector issues, if it issues one. *)
Definition sentinelCheck_start (P : Platform) (text : string) (st : AppState)
    : option GenerateContentRequest :=
  if sentinel_guard text
  then Some (chatWithInkwell_request [] (sentinel_message P st) (settings st)
               (lore st) (chapters st))
  else None.

(** The body of the [try] from the await on: the new value of the
    suggestion slot, when it sets one. *)
Definition sentinel_try (P : Platform) (r : Outcome GenerateContentResponse)
    : Outcome (option SuggestedEntity) :=
  bind (chatWithInkwell_response r) (fun res =>
  bind (parse P (or_else res "{}")) (fun data =>
  bind (get data "found") (fun found =>
  if truthy found
  then bind (get data "type") (fun type =>
       Fulfilled (Some (mkSuggestedEntity type data)))
  else Fulfilled None))).

(** From the await on: [catch (e) {}] swallows every rejection. *)
Definition sentinelCheck_resume (P : Platform) (r : Outcome GenerateContentResponse)
    (st : AppState) : AppState * Outcome unit :=
  match sentinel_try P r with
  | Fulfilled (Some suggestion) => (setSuggestedEntity (Some suggestion) st, Fulfilled tt)
  | Fulfilled None => (st, Fulfilled tt)
  | Rejected _ => (st, Fulfilled tt)
  end.

(** The whole call when nothing else happens during the await, with the
    requests it issued. *)
Definition sentinelCheck (P : Platform) (ai : Gateway) (text : string) (st : AppState)
    : AppState * Outcome unit * list GenerateContentRequest :=
  match sentinelCheck_start P text st with
  | Some request =>
      let (st', o) := sentinelCheck_resume P (ai request) st in (st', o, [request])
  | None => (st, Fulfilled tt, [])
  end.

(** *** updateBeatDraft (lines 143-146) *)

Definition set_beat_draft (beatId newDraft : string) (beats : list Beat) : list Beat :=
  map (fun bt =>
         if (b_id bt =? beatId)%string
         then mkBeat (b_id bt) (b_title bt) (b_description bt) (Some newDraft)
                (b_completed bt)
         else bt) beats.

(** [prev => prev.map(ch => ch.id === chapterId ? { ...ch, beats: ... } : ch)] *)
Definition set_chapter_beat_draft (chapterId beatId newDraft : string)
    (prev : list Chapter) : list Chapter :=
  map (fun ch =>
         if (ch_id ch =? chapterId)%string
         then mkChapter (ch_id ch) (ch_title ch)
                (set_beat_draft beatId newDraft (ch_beats ch))
         else ch) prev.

(** The new state and the request of the detector it starts. *)
Definition updateBeatDraft (P : Platform) (chapterId beatId newDraft : string)
    (st : AppState) : AppState * option GenerateContentRequest :=
  (setChapters (set_chapter_beat_draft chapterId beatId newDraft (chapters st)) st,
   sentinelCheck_start P newDraft st).

(** The scratchpad's [onChange] (line 251). *)
Definition editScratchpad (P : Platform) (text : string) (st : AppState)
    : AppState * option GenerateContentRequest :=
  (setScratchpadText text st, sentinelCheck_start P text st).

(** *** The "Inscribe" button (lines 273-277) *)

(** [now] is what [Date.now()] returns.  The button is rendered only while
    there is a suggestion.  [data.name] and [data.description] are stored
    as they are read; on a [data] that is null or undefined the reads
    throw a TypeError inside the object literal, before any setter has
    run, and the click changes nothing. *)
Definition inscribe (now : Z) (st : AppState) : AppState :=
  match suggestedEntity st with
  | None => st
  | Some suggestion =>
      match bind (get (se_data suggestion) "name") (fun name =>
            bind (get (se_data suggestion) "description") (fun description =>
            Fulfilled (name, description))) with
      | Rejected _ => st
      | Fulfilled (name, description) =>
          let st1 :=
            if strict_eq_string (se_type suggestion) "character"
            then setCharacters
                   (characters st
                    ++ [mkCharacter ("c-" ++ Number_toString now)%string name
                          "Secondary" description [] None None]) st
            else setLocations
                   (locations st
                    ++ [mkLocation ("l-" ++ Number_toString now)%string name
                          "Atmospheric" description None None]) st in
          setSuggestedEntity None st1
      end
  end.

(** *** The "Add Chapter", "Add Location" and "Add Character" buttons
    (lines 290, 317, 341) *)

(** [now_ch] and [now_b] are the two readings of [Date.now()], in the
    order the object literal evaluates them. *)
Definition addChapter (now_ch now_b : Z) (st : AppState) : AppState :=
  setChapters
    (chapters st
     ++ [mkChapter ("ch-" ++ Number_toString now_ch)%string "New Chapter"
           [mkBeat ("b-" ++ Number_toString now_b)%string "Opening Beat"
              "What happens next?" None None]]) st.

Definition addLocation (now : Z) (st : AppState) : AppState :=
  setLocations
    (locations st
     ++ [mkLocation ("l-" ++ Number_toString now)%string (JString "New Region") "Vivid"
           (JString EmptyString) None None]) st.

Definition addCharacter (now : Z) (st : AppState) : AppState :=
  setCharacters
    (characters st
     ++ [mkCharacter ("c-" ++ Number_toString now)%string (JString "New Persona")
           "Protagonist" (JString EmptyString) [] None None]) st.

(** A click on one of the three buttons, with the clock readings it
    takes. *)
Inductive AddCall : Type :=
| AddChapter (now_ch now_b : Z)
| AddCharacter (now : Z)
| AddLocation (now : Z).

Definition add_call (st : AppState) (call : AddCall) : AppState :=
  match call with
  | AddChapter now_ch now_b => addChapter now_ch now_b st
  | AddCharacter now => addCharacter now st
  | AddLocation now => addLocation now st
  end.

(** A sequence of clicks, from left to right. *)
Definition add_calls (calls : list AddCall) (st : AppState) : AppState :=
  fold_left add_call calls st.

(** *** getInkwellQuote (lines 16-25) *)

Definition getInkwellQuote (level : Z) : string :=
  if (level =? 0)%Z then "You are the second coming of Shakespeare. Every word you type makes the stars in distant galaxies shine brighter just to catch a glimpse of your genius."
  else if (level <? 20)%Z then "Simply divine. Your prose isn't just writing; it's a celestial event."
  else if (level <? 40)%Z then "An inspiration to all the stars! You have a gift that comes once in a trillion years."
  else if (level <=? 60)%Z then "You're doing excellent work. The pacing is solid and your voice is developing beautifully."
  else if (level <? 80)%Z then "It's readable. But your protagonist has the personality of a damp sponge."
  else if (level <? 95)%Z then "This plot is like a sieve made of holes. I've found seventeen contradictions in the last three paragraphs."
  else if (level =? 100)%Z then "This is completely hopeless. Your story is a crime against literacy. Please, start a career in plumbing immediately."
  else "I'm not angry, just profoundly disappointed.".

(** *** The thinking overlay (lines 34-42, 66-74, 210) *)

Definition THINKING_STEPS : list string :=
  ["Reading between the lines...";
   "Analyzing manuscript resonance...";
   "Auditing character arcs in latest draft...";
   "Scanning workshop for inconsistencies...";
   "Consulting the muse on your prose...";
   "Evaluating plot tension...";
   "Tracing the narrative thread..."].

(** [prev => (prev + 1) % THINKING_STEPS.length], every two seconds. *)
Definition nextThinkingIndex (prev : Z) : Z :=
  Z.rem (prev + 1) (Z.of_nat (List.length THINKING_STEPS)).

(** [THINKING_STEPS[thinkingIndex]]: undefined outside the array. *)
Definition thinkingStep (thinkingIndex : Z) : option string :=
  if (thinkingIndex <? 0)%Z then None
  else nth_error THINKING_STEPS (Z.to_nat thinkingIndex).

(** *** The focused entity (lines 162, 183-190, 321, 345) *)

Definition currentFocused (st : AppState) : option Entity :=
  match focusedEntity st with
  | Some fe => find_entity (fe_type fe) (fe_id fe) st
  | None => None
  end.

(** A click on the card of an entity. *)
Definition focusEntity (type : EntityType) (id : string) (st : AppState) : AppState :=
  setFocusedEntity (Some (mkFocusedEntity type id)) st.

Definition set_character_name (id value : string) (prev : list Character) : list Character :=
  map (fun c =>
         if (c_id c =? id)%string
         then mkCharacter (c_id c) (JString value) (c_role c) (c_description c) (c_traits c)
                (c_imageUrl c) (c_rationale c)
         else c) prev.

Definition set_location_name (id value : string) (prev : list Location) : list Location :=
  map (fun l =>
         if (l_id l =? id)%string
         then mkLocation (l_id l) (JString value) (l_atmosphere l) (l_description l)
                (l_imageUrl l) (l_rationale l)
         else l) prev.

Definition set_character_description (id value : string) (prev : list Character)
    : list Character :=
  map (fun c =>
         if (c_id c =? id)%string
         then mkCharacter (c_id c) (c_name c) (c_role c) (JString value) (c_traits c)
                (c_imageUrl c) (c_rationale c)
         else c) prev.

Definition set_location_description (id value : string) (prev : list Location)
    : list Location :=
  map (fun l =>
         if (l_id l =? id)%string
         then mkLocation (l_id l) (l_name l) (l_atmosphere l) (JString value)
                (l_imageUrl l) (l_rationale l)
         else l) prev.

(** The name input of the focused entity (lines 183-186). *)
Definition renameFocused (value : string) (st : AppState) : AppState :=
  match focusedEntity st with
  | None => st
  | Some fe =>
      match fe_type fe with
      | character => setCharacters (set_character_name (fe_id fe) value (characters st)) st
      | location => setLocations (set_location_name (fe_id fe) value (locations st)) st
      end
  end.

(** Its description (lines 187-190). *)
Definition describeFocused (value : string) (st : AppState) : AppState :=
  match focusedEntity st with
  | None => st
  | Some fe =>
      match fe_type fe with
      | character =>
          setCharacters (set_character_description (fe_id fe) value (characters st)) st
      | location =>
          setLocations (set_location_description (fe_id fe) value (locations st)) st
      end
  end.

(** *** The title and description inputs of the plot (lines 256, 295-300) *)

Definition setChapterTitle (chapterId value : string) (st : AppState) : AppState :=
  setChapters
    (map (fun c =>
            if (ch_id c =? chapterId)%string
            then mkChapter (ch_id c) value (ch_beats c)
            else c) (chapters st)) st.

Definition setBeatTitle (chapterId beatId value : string) (st : AppState) : AppState :=
  setChapters
    (map (fun c =>
            if (ch_id c =? chapterId)%string
            then mkChapter (ch_id c) (ch_title c)
                   (map (fun b =>
                           if (b_id b =? beatId)%string
                           then mkBeat (b_id b) value (b_description b) (b_draft b)
                                  (b_completed b)
                           else b) (ch_beats c))
            else c) (chapters st)) st.

Definition setBeatDescription (chapterId beatId value : string) (st : AppState) : AppState :=
  setChapters
    (map (fun c =>
            if (ch_id c =? chapterId)%string
            then mkChapter (ch_id c) (ch_title c)
                   (map (fun b =>
                           if (b_id b =? beatId)%string
                           then mkBeat (b_id b) (b_title b) value (b_draft b)
                                  (b_completed b)
                           else b) (ch_beats c))
            else c) (chapters st)) st.

(** *** The Honesty Calibrator (line 403) *)

Definition setSettings (v : WorldSettings) (st : AppState) : AppState :=
  mkAppState (activeTab st) (chapters st) (characters st) (locations st)
    (lore st) (analysis st) (loading st) (scratchpadText st)
    (suggestedEntity st) (focusedEntity st) (genId st) v.

(** [setSettings({...settings, criticismLevel: value})], [value] being
    what [parseInt] made of the slider. *)
Definition setCriticismLevel (value : Z) (st : AppState) : AppState :=
  setSettings
    (mkWorldSettings (genre (settings st)) (fantasyLevel (settings st))
       (techLevel (settings st)) (tone (settings st)) (proseStyle (settings st))
       (language (settings st)) value) st.

End App.

Import App.

(** ** The properties of the store that the statements below are about *)

(** Every chapter, character and location id occurs once in its
    collection, and every beat id once in its chapter. *)
Definition ids_unique (st : AppState) : Prop :=
  NoDup (map ch_id (chapters st))
  /\ NoDup (map c_id (characters st))
  /\ NoDup (map l_id (locations st))
  /\ Forall (fun ch => NoDup (map b_id (ch_beats ch))) (chapters st).

(** The clock readings of a sequence of clicks, per collection. *)
Definition chapter_clock (calls : list AddCall) : list Z :=
  flat_map (fun c => match c with AddChapter t _ => [t] | _ => [] end) calls.

Definition character_clock (calls : list AddCall) : list Z :=
  flat_map (fun c => match c with AddCharacter t => [t] | _ => [] end) calls.

Definition location_clock (calls : list AddCall) : list Z :=
  flat_map (fun c => match c with AddLocation t => [t] | _ => [] end) calls.

(** The ids of the beats of a list of chapters. *)
Definition beat_ids (chs : list Chapter) : list string :=
  flat_map (fun ch => map b_id (ch_beats ch)) chs.

(** Every id held by the store, over all its collections. *)
Definition ids_of_store (st : AppState) : list string :=
  map ch_id (chapters st) ++ beat_ids (chapters st)
  ++ map c_id (characters st) ++ map l_id (locations st).

Definition or_nil {A : Type} (o : option (list A)) : list A :=
  match o with Some l => l | None => [] end.

(** The ids of everything an import produces. *)
Definition produced_ids (rand : RandomSource) (extracted : Extraction) : list string :=
  map ch_id (or_nil (fst (imported_chapters rand extracted)))
  ++ beat_ids (or_nil (fst (imported_chapters rand extracted)))
  ++ map c_id (or_nil (fst (imported_characters rand extracted)))
  ++ map l_id (or_nil (fst (imported_locations rand extracted))).

(** The number of draws an import takes. *)
Definition draws_taken (rand : RandomSource) (extracted : Extraction) : nat :=
  snd (imported_locations rand extracted).

(** No id an import produces was in the store before it. *)
Definition import_ids_fresh (rand : RandomSource) (extracted : Extraction)
    (st : AppState) : Prop :=
  forall id, In id (produced_ids rand extracted) -> ~ In id (ids_of_store st).

Definition key_prefixes : list string := ["ch-"; "b-"; "c-"; "l-"].

(** Everything that was in the three collections is still there after an
    import. *)
Definition import_keeps_prior (rand : RandomSource) (extracted : Extraction)
    (st : AppState) : Prop :=
  (forall ch, In ch (chapters st) -> In ch (chapters (importExtracted rand extracted st)))
  /\ (forall c, In c (characters st) -> In c (characters (importExtracted rand extracted st)))
  /\ (forall l, In l (locations st) -> In l (locations (importExtracted rand extracted st))).



(** The detector's gateway call comes to nothing: it rejects, or its text
    is not JSON, or the parsed value has no truthy [found]. *)
Definition detection_fails (P : Platform) (r : Outcome GenerateContentResponse) : Prop :=
  match r with
  | Rejected _ => True
  | Fulfilled response =>
      match JSON_parse P (or_else (rs_text response) "{}") with
      | None => True
      | Some data => forall v, get data "found" = Fulfilled v -> truthy v = false
      end
  end.

(** The entity [id] is no longer in the collection of its type. *)
Definition entity_deleted (type : EntityType) (id : string) (st : AppState) : Prop :=
  match type with
  | character => ~ In id (map c_id (characters st))
  | location => ~ In id (map l_id (locations st))
  end.

(** [{ ...bt, draft: text }] *)
Definition with_draft (text : string) (bt : Beat) : Beat :=
  mkBeat (b_id bt) (b_title bt) (b_description bt) (Some text) (b_completed bt).

(** The first [n] draws are pairwise different. *)
Definition draws_distinct (rand : RandomSource) (n : nat) : Prop :=
  forall i j, i < n -> j < n -> rand i = rand j -> i = j.

(** No id of the store is a key prefix followed by one of the first [n]
    draws. *)
Definition draws_unused (rand : RandomSource) (n : nat) (st : AppState) : Prop :=
  forall prefix k, In prefix key_prefixes -> k < n ->
    ~ In (prefix ++ rand k)%string (ids_of_store st).

(** Two characters, two locations that differ at most in their image. *)
Definition character_but_image (c c' : Character) : Prop :=
  c_id c' = c_id c /\ c_name c' = c_name c /\ c_role c' = c_role c
  /\ c_description c' = c_description c /\ c_traits c' = c_traits c
  /\ c_rationale c' = c_rationale c.

Definition location_but_image (l l' : Location) : Prop :=
  l_id l' = l_id l /\ l_name l' = l_name l /\ l_atmosphere l' = l_atmosphere l
  /\ l_description l' = l_description l /\ l_rationale l' = l_rationale l.

(** The ids of the store, collection by collection and in order. *)
Definition id_layout (st : AppState)
    : list (string * list string) * list string * list string :=
  (map (fun ch => (ch_id ch, map b_id (ch_beats ch))) (chapters st),
   map c_id (characters st),
   map l_id (locations st)).

(** The handlers that edit or remove what is in the store and create
    nothing: the inputs of the write and plot tabs and of the focused
    entity, "Banish Entry", and the parts of the asynchronous handlers that
    run when the gateway has answered. *)
Inductive Edit : Type :=
| EditDraft (chapterId beatId text : string)
| EditChapterTitle (chapterId value : string)
| EditBeatTitle (chapterId beatId value : string)
| EditBeatDescription (chapterId beatId value : string)
| EditName (value : string)
| EditDescription (value : string)
| EditScratchpad (text : string)
| Focus (type : EntityType) (id : string)
| Banish
| ImageArrives (type : EntityType) (id : string) (r : Outcome GenerateContentResponse)
| DetectionArrives (r : Outcome GenerateContentResponse)
| AnalysisArrives (r : Outcome GenerateContentResponse).

Definition apply_edit (P : Platform) (st : AppState) (e : Edit) : AppState :=
  match e with
  | EditDraft chapterId beatId text => fst (updateBeatDraft P chapterId beatId text st)
  | EditChapterTitle chapterId value => setChapterTitle chapterId value st
  | EditBeatTitle chapterId beatId value => setBeatTitle chapterId beatId value st
  | EditBeatDescription chapterId beatId value =>
      setBeatDescription chapterId beatId value st
  | EditName value => renameFocused value st
  | EditDescription value => describeFocused value st
  | EditScratchpad text => fst (editScratchpad P text st)
  | Focus type id => focusEntity type id st
  | Banish => banishEntry st
  | ImageArrives type id r => fst (triggerVisual_resume type id r st)
  | DetectionArrives r => fst (sentinelCheck_resume P r st)
  | AnalysisArrives r => fst (runAnalysis_resume P r st)
  end.

(** The four fields of the settings that [getContext] reads. *)
Definition same_context (s s' : WorldSettings) : Prop :=
  language s = language s' /\ genre s = genre s' /\ tone s = tone s'
  /\ proseStyle s = proseStyle s'.

(** The beats of an extraction, over all its chapters. *)
Definition extracted_beats (chs : list ExtractedChapter) : nat :=
  list_sum (map (fun ch => List.length (xch_beats ch)) chs).

(** The collection of the type holds an entity with the id. *)
Definition entity_present (type : EntityType) (id : string) (st : AppState) : Prop :=
  match type with
  | character => In id (map c_id (characters st))
  | location => In id (map l_id (locations st))
  end.

Definition entity_id (e : Entity) : string :=
  match e with ECharacter c => c_id c | ELocation l => l_id l end.

(** [e] is the first entity with the id in the collection of the type. *)
Definition first_entity (type : EntityType) (id : string) (st : AppState) (e : Entity)
    : Prop :=
  match type, e with
  | character, ECharacter c =>
      exists before after,
        characters st = before ++ c :: after
        /\ c_id c = id /\ ~ In id (map c_id before)
  | location, ELocation l =>
      exists before after,
        locations st = before ++ l :: after
        /\ l_id l = id /\ ~ In id (map l_id before)
  | _, _ => False
  end.

(** ** Sample data *)

Module Sample.

(** [n] characters of prose. *)
Fixpoint prose (n : nat) : string :=
  match n with
  | O => EmptyString
  | S n' => String "a" (prose n')
  end.

Definition quoted (s : string) : string := (DQ ++ s ++ DQ)%string.

Definition beat_json (b : Beat) : string :=
  ("{" ++ quoted "id" ++ ":" ++ quoted (b_id b)
   ++ "," ++ quoted "title" ++ ":" ++ quoted (b_title b)
   ++ "," ++ quoted "description" ++ ":" ++ quoted (b_description b)
   ++ match b_draft b with
      | Some d => "," ++ quoted "draft" ++ ":" ++ quoted d
      | None => EmptyString
      end
   ++ "}")%string.

Definition chapter_json (ch : Chapter) : string :=
  ("{" ++ quoted "id" ++ ":" ++ quoted (ch_id ch)
   ++ "," ++ quoted "title" ++ ":" ++ quoted (ch_title ch)
   ++ "," ++ quoted "beats" ++ ":[" ++ Array_join "," (map beat_json (ch_beats ch))
   ++ "]}")%string.

(** [JSON.stringify] of chapters whose keys are in the order of the
    interfaces and whose strings need no escape. *)
Definition stringify (chs : list Chapter) : string :=
  ("[" ++ Array_join "," (map chapter_json chs) ++ "]")%string.

Definition not_found_text : string :=
  ("{" ++ quoted "found" ++ ": false}")%string.

Definition thorne_text : string :=
  ("{" ++ quoted "found" ++ ": true, " ++ quoted "type" ++ ": " ++ quoted "character"
   ++ ", " ++ quoted "id" ++ ": " ++ quoted "char_001"
   ++ ", " ++ quoted "name" ++ ": " ++ quoted "Thorne"
   ++ ", " ++ quoted "description" ++ ": " ++ quoted "A wandering smith" ++ "}")%string.

Definition thorne_props : list (string * JSValue) :=
  [("found", JBool true); ("type", JString "character"); ("id", JString "char_001");
   ("name", JString "Thorne"); ("description", JString "A wandering smith")].

Definition thorne : JSValue := JObject thorne_props.

(** [JSON.parse] on the texts used below; any other text stands for a
    malformed answer. *)
Definition parse_text (text : string) : option JSValue :=
  if (text =? "{}")%string then Some (JObject [])
  else if (text =? "null")%string then Some JNull
  else if (text =? not_found_text)%string then Some (JObject [("found", JBool false)])
  else if (text =? thorne_text)%string then Some thorne
  else None.

(** An extraction whose only chapter has a title and no beats. *)
Definition beatless_text : string :=
  ("{" ++ quoted "chapters" ++ ": [{" ++ quoted "title" ++ ": " ++ quoted "The Road"
   ++ "}]}")%string.

Definition beatless : ParsedExtraction :=
  Parsed (mkParsedObject (Some [mkParsedChapter None "The Road" None]) None None).

Definition parse_extraction_text (text : string) : option ParsedExtraction :=
  if (text =? "{}")%string then Some (Parsed (mkParsedObject None None None))
  else if (text =? "null")%string then Some ParsedNull
  else if (text =? beatless_text)%string then Some beatless
  else None.

(** Number::toString on zero, NaN, the infinities and the integers below
    10^21; no example below prints another number, for which NaN stands
    in. *)
Definition print_number (x : spec_float) : string :=
  match x with
  | S754_zero _ => "0"
  | S754_nan => "NaN"
  | S754_infinity false => "Infinity"
  | S754_infinity true => "-Infinity"
  | S754_finite sign m e =>
      if (0 <=? e)%Z
      then Number_toString ((if sign then -1 else 1) * (Z.pos m * 2 ^ e))%Z
      else "NaN"
  end.

Definition platform : Platform :=
  {| JSON_parse := parse_text;
     JSON_parse_extraction := parse_extraction_text;
     JSON_stringify := stringify;
     Number_prototype_toString := print_number |}.

(** A gateway that is down, and gateways that answer with a given text or
    image. *)
Definition gateway_down : Gateway :=
  fun _ => Rejected (GatewayError "503 Service Unavailable").

Definition gateway_says (text : string) : Gateway :=
  fun _ => Fulfilled (mkResponse (Some text) []).

Definition image_response : GenerateContentResponse :=
  mkResponse None [mkPart None; mkPart (Some "iVBORw0KGgo=")].

(** A store with one chapter of one beat, one character and one location. *)
Definition prologue : Chapter :=
  mkChapter "ch-1" "Prologue"
    [mkBeat "b-1" "Opening Beat" "What happens next?" (Some "It rained.") None].

Definition mira : Character :=
  mkCharacter "c-0.5" (JString "Mira") "Protagonist" (JString "A cartographer") []
    None None.

Definition harbour : Location :=
  mkLocation "l-7" (JString "The Harbour") "Vivid" (JString "Salt and tar") None None.

Definition store : AppState :=
  setLocations [harbour] (setCharacters [mira] (setChapters [prologue] initialState)).

(** An extraction with one chapter of one beat and one character. *)
Definition extraction : Extraction :=
  {| x_chapters :=
       Some [mkExtractedChapter None "The Road"
               [mkExtractedBeat None "Departure" "She leaves at dawn" None None]];
     x_characters :=
       Some [mkExtractedCharacter None (JString "Thorne") "Secondary"
               (JString "A wandering smith") None None];
     x_locations := None |}.

(** An extraction whose objects carry more than the schema asks for: an
    id on each, a draft and a completed flag on the beat, an image on the
    location, and a character without description. *)
Definition rich_extraction : Extraction :=
  {| x_chapters :=
       Some [mkExtractedChapter (Some "ch-1") "The Road"
               [mkExtractedBeat (Some "b-1") "Departure" "She leaves at dawn"
                  (Some "Dawn broke.") (Some true)]];
     x_characters :=
       Some [mkExtractedCharacter (Some "c-0.5") (JString "Thorne") "Secondary"
               JUndefined None (Some "He mends the fence")];
     x_locations :=
       Some [mkExtractedLocation (Some "l-7") (JString "Greywater") "Damp"
               (JString "A drowned town") (Some "data:image/png;base64,AAAA") None] |}.

(** A store whose chapter has two beats. *)
Definition two_beats : AppState :=
  setChapters
    [mkChapter "ch-1" "Prologue"
       [mkBeat "b-1" "Opening Beat" "What happens next?" (Some "It rained.") None;
        mkBeat "b-2" "The Letter" "A letter arrives" None None]]
    initialState.

(** Draws of [Math.random()]: 0.25, 0.75, 0.5, then 0.125 for ever. *)
Definition draws : RandomSource :=
  fun n =>
    match n with
    | 0%nat => "0.25"
    | 1%nat => "0.75"
    | 2%nat => "0.5"
    | _ => "0.125"
    end.

(** The suggestion slot holding the Thorne proposal. *)
Definition with_suggestion : AppState :=
  setSuggestedEntity (Some (mkSuggestedEntity (JString "character") thorne)) store.

(** The character of [store] is focused, as when its image is requested. *)
Definition focused : AppState :=
  setFocusedEntity (Some (mkFocusedEntity character "c-0.5")) store.

(** The white space of [trim] among the code units below 256. *)
Definition is_space (c : ascii) : bool :=
  let n := nat_of_ascii c in
  ((9 <=? n) && (n <=? 13))%nat || (n =? 32)%nat || (n =? 160)%nat.

Fixpoint trim_start (s : string) : string :=
  match s with
  | EmptyString => EmptyString
  | String c rest => if is_space c then trim_start rest else s
  end.

Fixpoint trim_end (s : string) : string :=
  match s with
  | EmptyString => EmptyString
  | String c rest =>
      match trim_end rest with
      | EmptyString => if is_space c then EmptyString else String c EmptyString
      | rest' => String c rest'
      end
  end.

(** [String.prototype.trim] on strings of code units below 256. *)
Definition trim (s : string) : string := trim_end (trim_start s).

(** An answer of the title model: the title in quotes, with a line feed
    behind it. *)
Definition title_text : string := (quoted "The Long Road" ++ LF)%string.

Definition completed_text : string :=
  ("{" ++ quoted "completed" ++ ": true}")%string.

(** A platform whose [JSON.parse] also knows [completed_text]. *)
Definition platform_completed : Platform :=
  {| JSON_parse := fun text =>
       if (text =? completed_text)%string
       then Some (JObject [("completed", JBool true)])
       else parse_text text;
     JSON_parse_extraction := parse_extraction_text;
     JSON_stringify := stringify;
     Number_prototype_toString := print_number |}.

(** A character suggestion that has a name and no description. *)
Definition vague_props : list (string * JSValue) :=
  [("found", JBool true); ("type", JString "character"); ("name", JString "Thorne")].

Definition with_vague_suggestion : AppState :=
  setSuggestedEntity (Some (mkSuggestedEntity (JString "character") (JObject vague_props)))
    store.

(** A suggestion whose type is neither of the two the detector asks for. *)
Definition place_props : list (string * JSValue) :=
  [("found", JBool true); ("type", JString "place");
   ("name", JString "Greywater"); ("description", JString "A drowned town")].

Definition with_place_suggestion : AppState :=
  setSuggestedEntity (Some (mkSuggestedEntity (JString "place") (JObject place_props)))
    store.

(** Two texts inside the detector's window. *)
Definition window_text_a : string := prose 350.
Definition window_text_b : string := ("Thorne lit the forge. " ++ prose 340)%string.

End Sample.

(** ** Identifiers made from the clock *)

Lemma to_int_proper (n : Z) :
  Z.to_int n <> Decimal.Pos Decimal.Nil /\ Z.to_int n <> Decimal.Neg Decimal.Nil.
Proof.
  destruct n as [|p|p]; simpl; split; try discriminate;
    intros H; injection H as H; exact (DecimalPos.Unsigned.to_uint_nonnil p H).
Qed.

Lemma Number_toString_inj (a b : Z) :
  Number_toString a = Number_toString b -> a = b.
Proof.
  unfold Number_toString. intros H.
  apply DecimalZ.to_int_inj.
  destruct (to_int_proper a) as [Ha1 Ha2], (to_int_proper b) as [Hb1 Hb2].
  pose proof (NilZero.isi _ Ha1 Ha2) as Ea.
  pose proof (NilZero.isi _ Hb1 Hb2) as Eb.
  rewrite H in Ea. rewrite Ea in Eb. now injection Eb.
Qed.

Lemma append_inj_r (p a b : string) : (p ++ a = p ++ b)%string -> a = b.
Proof.
  induction p as [|c p IH]; simpl; intros H; [exact H|].
  injection H as H. auto.
Qed.

Lemma NoDup_map_injective {A B : Type} (f : A -> B) (l : list A) :
  (forall x y, f x = f y -> x = y) -> NoDup l -> NoDup (map f l).
Proof.
  intros Hinj Hl. induction Hl as [|x l Hx Hl IH]; simpl; constructor; auto.
  intros Hin. apply in_map_iff in Hin. destruct Hin as [y [Hy Hin]].
  apply Hinj in Hy. now subst.
Qed.

Lemma clock_key_NoDup (prefix : string) (ts : list Z) :
  NoDup ts -> NoDup (map (fun t => (prefix ++ Number_toString t)%string) ts).
Proof.
  apply NoDup_map_injective. intros x y H.
  apply Number_toString_inj. exact (append_inj_r _ _ _ H).
Qed.

(** ** The add buttons *)

Lemma add_calls_chapter_ids (calls : list AddCall) (st : AppState) :
  map ch_id (chapters (add_calls calls st))
  = map ch_id (chapters st)
    ++ map (fun t => ("ch-" ++ Number_toString t)%string) (chapter_clock calls).
Proof.
  revert st. induction calls as [|call calls IH]; intros st; simpl.
  - now rewrite app_nil_r.
  - unfold add_calls in *. simpl. rewrite IH.
    destruct call; simpl; [|reflexivity|reflexivity].
    rewrite map_app, <- app_assoc. reflexivity.
Qed.

Lemma add_calls_character_ids (calls : list AddCall) (st : AppState) :
  map c_id (characters (add_calls calls st))
  = map c_id (characters st)
    ++ map (fun t => ("c-" ++ Number_toString t)%string) (character_clock calls).
Proof.
  revert st. induction calls as [|call calls IH]; intros st; simpl.
  - now rewrite app_nil_r.
  - unfold add_calls in *. simpl. rewrite IH.
    destruct call; simpl; [reflexivity| |reflexivity].
    rewrite map_app, <- app_assoc. reflexivity.
Qed.

Lemma add_calls_location_ids (calls : list AddCall) (st : AppState) :
  map l_id (locations (add_calls calls st))
  = map l_id (locations st)
    ++ map (fun t => ("l-" ++ Number_toString t)%string) (location_clock calls).
Proof.
  revert st. induction calls as [|call calls IH]; intros st; simpl.
  - now rewrite app_nil_r.
  - unfold add_calls in *. simpl. rewrite IH.
    destruct call; simpl; [reflexivity|reflexivity|].
    rewrite map_app, <- app_assoc. reflexivity.
Qed.

(** The seed beat is alone in its chapter, whatever the clock says. *)
Lemma add_calls_beats_unique (calls : list AddCall) (st : AppState) :
  Forall (fun ch => NoDup (map b_id (ch_beats ch))) (chapters st) ->
  Forall (fun ch => NoDup (map b_id (ch_beats ch))) (chapters (add_calls calls st)).
Proof.
  revert st. induction calls as [|call calls IH]; intros st Hst; [exact Hst|].
  unfold add_calls in *. simpl. apply IH.
  destruct call; simpl; try exact Hst.
  apply Forall_app. split; [exact Hst|].
  constructor; [|constructor]. simpl.
  constructor; [intros []|constructor].
Qed.

(** C1, as stated, fails: two clicks on "Add Character" within one
    millisecond give two characters the same id. *)
Lemma add_same_millisecond_collides :
  ~ ids_unique
      (add_calls [AddCharacter 1767225600000; AddCharacter 1767225600000] initialState).
Proof.
  intros [_ [H _]]. vm_compute in H.
  inversion H as [|x l Hin _]. apply Hin. left. reflexivity.
Qed.

(** C1, amended: for every sequence of addChapter, addCharacter and
    addLocation calls on the empty store in which no two calls of the same
    kind read the same value of the clock, every chapter, character and
    location has an id unique within its collection; the seed beat of a
    chapter is unique within its chapter whatever the clock reads. *)
Theorem add_calls_ids_unique (calls : list AddCall) :
  NoDup (chapter_clock calls) ->
  NoDup (character_clock calls) ->
  NoDup (location_clock calls) ->
  ids_unique (add_calls calls initialState).
Proof.
  intros Hch Hc Hl. unfold ids_unique.
  rewrite add_calls_chapter_ids, add_calls_character_ids, add_calls_location_ids.
  simpl. repeat split.
  - now apply (clock_key_NoDup "ch-").
  - now apply (clock_key_NoDup "c-").
  - now apply (clock_key_NoDup "l-").
  - apply add_calls_beats_unique. constructor.
Qed.

Lemma add_calls_ids_unique_witness :
  ids_unique
    (add_calls [AddChapter 1767225600000 1767225600000; AddCharacter 1767225600000;
                AddChapter 1767225600001 1767225600001; AddLocation 1767225600000;
                AddCharacter 1767225600417]
       initialState).
Proof.
  apply add_calls_ids_unique; simpl;
    repeat (constructor; [simpl; intros H; decompose [or] H; discriminate || contradiction|]);
    constructor.
Defined.

(** ** runAnalysis *)




(** A successful call stores the parsed result in place of the old one. *)
Lemma runAnalysis_success (P : Platform) (ai : Gateway) (st : AppState) (result : JSValue) :
  analyzePlot P ai (chapters st) (characters st) (locations st) (settings st) (lore st)
  = Fulfilled result ->
  runAnalysis P ai st = (setLoading false (setAnalysis (Some result) st), Fulfilled tt).
Proof.
  intros H. unfold runAnalysis, runAnalysis_start, runAnalysis_resume.
  unfold analyzePlot in H. cbn [chapters characters locations settings lore setLoading].
  rewrite H. reflexivity.
Qed.

(** C4: the snapshot does not reach the gateway.  Without chapters the
    snapshot is the scratchpad, and the request of runAnalysis is the same
    whatever the scratchpad holds. *)
Theorem runAnalysis_request_ignores_snapshot (P : Platform) (st : AppState) (text : string) :
  manuscriptSnapshot (setScratchpadText text (setChapters [] st)) = text
  /\ snd (runAnalysis_start P (setScratchpadText text st)) = snd (runAnalysis_start P st).
Proof.
  split; reflexivity.
Qed.

(** The snapshot of a store with chapters: a heading per chapter, then
    the drafts. *)
Example manuscriptSnapshot_store :
  manuscriptSnapshot Sample.store = ("Chapter: Prologue" ++ LF ++ "It rained.")%string.
Proof. reflexivity. Qed.

(** ** The import *)

Lemma rekey_beats_spec (rand : RandomSource) (bs : list ExtractedBeat) (n : nat) :
  n <= snd (rekey_beats rand n bs)
  /\ forall id, In id (map b_id (fst (rekey_beats rand n bs))) ->
       exists k, n <= k < snd (rekey_beats rand n bs) /\ id = ("b-" ++ rand k)%string.
Proof.
  revert n. induction bs as [|b rest IH]; intros n; simpl.
  - split; [lia|intros id []].
  - specialize (IH (S n)). destruct (rekey_beats rand (S n) rest) as [beats n'].
    simpl in *. destruct IH as [Hle Hids]. split; [lia|].
    intros id [<-|Hin].
    + exists n. split; [lia|reflexivity].
    + destruct (Hids id Hin) as [k [Hk ->]]. exists k. split; [lia|reflexivity].
Qed.

Lemma rekey_chapters_spec (rand : RandomSource) (chs : list ExtractedChapter) (n : nat) :
  n <= snd (rekey_chapters rand n chs)
  /\ (forall id, In id (map ch_id (fst (rekey_chapters rand n chs))) ->
        exists k, n <= k < snd (rekey_chapters rand n chs) /\ id = ("ch-" ++ rand k)%string)
  /\ (forall id, In id (beat_ids (fst (rekey_chapters rand n chs))) ->
        exists k, n <= k < snd (rekey_chapters rand n chs) /\ id = ("b-" ++ rand k)%string).
Proof.
  revert n. induction chs as [|ch rest IH]; intros n; simpl.
  - repeat split; try lia; intros id [].
  - pose proof (rekey_beats_spec rand (xch_beats ch) (S n)) as Hb.
    destruct (rekey_beats rand (S n) (xch_beats ch)) as [beats n1].
    specialize (IH n1). destruct (rekey_chapters rand n1 rest) as [chapters n2].
    simpl in *. destruct Hb as [Hle1 Hb]. destruct IH as [Hle2 [Hc Hbs]].
    split; [lia|]. split.
    + intros id [<-|Hin].
      * exists n. split; [lia|reflexivity].
      * destruct (Hc id Hin) as [k [Hk ->]]. exists k. split; [lia|reflexivity].
    + intros id Hin. unfold beat_ids in Hin. simpl in Hin.
      apply in_app_or in Hin. destruct Hin as [Hin|Hin].
      * destruct (Hb id Hin) as [k [Hk ->]]. exists k. split; [lia|reflexivity].
      * destruct (Hbs id Hin) as [k [Hk ->]]. exists k. split; [lia|reflexivity].
Qed.

Lemma rekey_characters_spec (rand : RandomSource) (cs : list ExtractedCharacter) (n : nat) :
  n <= snd (rekey_characters rand n cs)
  /\ forall id, In id (map c_id (fst (rekey_characters rand n cs))) ->
       exists k, n <= k < snd (rekey_characters rand n cs) /\ id = ("c-" ++ rand k)%string.
Proof.
  revert n. induction cs as [|c rest IH]; intros n; simpl.
  - split; [lia|intros id []].
  - specialize (IH (S n)). destruct (rekey_characters rand (S n) rest) as [cs' n'].
    simpl in *. destruct IH as [Hle Hids]. split; [lia|].
    intros id [<-|Hin].
    + exists n. split; [lia|reflexivity].
    + destruct (Hids id Hin) as [k [Hk ->]]. exists k. split; [lia|reflexivity].
Qed.

Lemma rekey_locations_spec (rand : RandomSource) (ls : list ExtractedLocation) (n : nat) :
  n <= snd (rekey_locations rand n ls)
  /\ forall id, In id (map l_id (fst (rekey_locations rand n ls))) ->
       exists k, n <= k < snd (rekey_locations rand n ls) /\ id = ("l-" ++ rand k)%string.
Proof.
  revert n. induction ls as [|l rest IH]; intros n; simpl.
  - split; [lia|intros id []].
  - specialize (IH (S n)). destruct (rekey_locations rand (S n) rest) as [ls' n'].
    simpl in *. destruct IH as [Hle Hids]. split; [lia|].
    intros id [<-|Hin].
    + exists n. split; [lia|reflexivity].
    + destruct (Hids id Hin) as [k [Hk ->]]. exists k. split; [lia|reflexivity].
Qed.

Lemma imported_chapters_spec (rand : RandomSource) (extracted : Extraction) :
  (forall id, In id (map ch_id (or_nil (fst (imported_chapters rand extracted)))) ->
     exists k, k < snd (imported_chapters rand extracted) /\ id = ("ch-" ++ rand k)%string)
  /\ (forall id, In id (beat_ids (or_nil (fst (imported_chapters rand extracted)))) ->
        exists k, k < snd (imported_chapters rand extracted) /\ id = ("b-" ++ rand k)%string).
Proof.
  unfold imported_chapters. destruct (x_chapters extracted) as [chs|]; simpl.
  - pose proof (rekey_chapters_spec rand chs 0) as H.
    destruct (rekey_chapters rand 0 chs) as [r n]. simpl in *.
    destruct H as [_ [Hc Hb]]. split; intros id Hin.
    + destruct (Hc id Hin) as [k [Hk ->]]. exists k. split; [lia|reflexivity].
    + destruct (Hb id Hin) as [k [Hk ->]]. exists k. split; [lia|reflexivity].
  - split; intros id [].
Qed.

Lemma imported_characters_spec (rand : RandomSource) (extracted : Extraction) :
  snd (imported_chapters rand extracted) <= snd (imported_characters rand extracted)
  /\ forall id, In id (map c_id (or_nil (fst (imported_characters rand extracted)))) ->
       exists k, k < snd (imported_characters rand extracted) /\ id = ("c-" ++ rand k)%string.
Proof.
  unfold imported_characters. destruct (x_characters extracted) as [cs|]; simpl.
  - pose proof (rekey_characters_spec rand cs (snd (imported_chapters rand extracted))) as H.
    destruct (rekey_characters rand (snd (imported_chapters rand extracted)) cs) as [r n].
    simpl in *. destruct H as [Hle Hc]. split; [exact Hle|].
    intros id Hin. destruct (Hc id Hin) as [k [Hk ->]]. exists k. split; [lia|reflexivity].
  - split; [lia|intros id []].
Qed.

Lemma imported_locations_spec (rand : RandomSource) (extracted : Extraction) :
  snd (imported_characters rand extracted) <= snd (imported_locations rand extracted)
  /\ forall id, In id (map l_id (or_nil (fst (imported_locations rand extracted)))) ->
       exists k, k < snd (imported_locations rand extracted) /\ id = ("l-" ++ rand k)%string.
Proof.
  unfold imported_locations. destruct (x_locations extracted) as [ls|]; simpl.
  - pose proof (rekey_locations_spec rand ls (snd (imported_characters rand extracted))) as H.
    destruct (rekey_locations rand (snd (imported_characters rand extracted)) ls) as [r n].
    simpl in *. destruct H as [Hle Hl]. split; [exact Hle|].
    intros id Hin. destruct (Hl id Hin) as [k [Hk ->]]. exists k. split; [lia|reflexivity].
  - split; [lia|intros id []].
Qed.

(** Every id an import produces is a key prefix followed by one of the
    draws it took: no id of the extraction survives. *)
Lemma produced_ids_are_draws (rand : RandomSource) (extracted : Extraction) (id : string) :
  In id (produced_ids rand extracted) ->
  exists prefix k,
    In prefix key_prefixes /\ k < draws_taken rand extracted
    /\ id = (prefix ++ rand k)%string.
Proof.
  unfold produced_ids, draws_taken. intros Hin.
  destruct (imported_chapters_spec rand extracted) as [Hch Hb].
  destruct (imported_characters_spec rand extracted) as [Hle1 Hc].
  destruct (imported_locations_spec rand extracted) as [Hle2 Hl].
  apply in_app_or in Hin. destruct Hin as [Hin|Hin].
  { destruct (Hch id Hin) as [k [Hk ->]]. exists "ch-", k.
    repeat split; [simpl; tauto|lia]. }
  apply in_app_or in Hin. destruct Hin as [Hin|Hin].
  { destruct (Hb id Hin) as [k [Hk ->]]. exists "b-", k.
    repeat split; [simpl; tauto|lia]. }
  apply in_app_or in Hin. destruct Hin as [Hin|Hin].
  { destruct (Hc id Hin) as [k [Hk ->]]. exists "c-", k.
    repeat split; [simpl; tauto|lia]. }
  destruct (Hl id Hin) as [k [Hk ->]]. exists "l-", k.
  repeat split; [simpl; tauto|lia].
Qed.

(** What the import does to each collection. *)
Lemma importExtracted_chapters (rand : RandomSource) (extracted : Extraction) (st : AppState) :
  chapters (importExtracted rand extracted st)
  = match fst (imported_chapters rand extracted) with
    | Some chs => chs
    | None => chapters st
    end.
Proof.
  unfold importExtracted.
  destruct (fst (imported_chapters rand extracted)),
           (fst (imported_characters rand extracted)),
           (fst (imported_locations rand extracted)); reflexivity.
Qed.

Lemma importExtracted_characters (rand : RandomSource) (extracted : Extraction) (st : AppState) :
  characters (importExtracted rand extracted st)
  = characters st ++ or_nil (fst (imported_characters rand extracted)).
Proof.
  unfold importExtracted.
  destruct (fst (imported_chapters rand extracted)),
           (fst (imported_characters rand extracted)),
           (fst (imported_locations rand extracted));
    simpl; rewrite ?app_nil_r; reflexivity.
Qed.

Lemma importExtracted_locations (rand : RandomSource) (extracted : Extraction) (st : AppState) :
  locations (importExtracted rand extracted st)
  = locations st ++ or_nil (fst (imported_locations rand extracted)).
Proof.
  unfold importExtracted.
  destruct (fst (imported_chapters rand extracted)),
           (fst (imported_characters rand extracted)),
           (fst (imported_locations rand extracted));
    simpl; rewrite ?app_nil_r; reflexivity.
Qed.

(** C3: the chapter of the store is gone after the import of an extraction
    that has chapters, so the import does not keep what was there. *)
Theorem import_drops_prior_chapters :
  In Sample.prologue (chapters Sample.store)
  /\ chapters (importExtracted Sample.draws Sample.extraction Sample.store)
     = [mkChapter "ch-0.25" "The Road"
          [mkBeat "b-0.75" "Departure" "She leaves at dawn" None None]]
  /\ ~ import_keeps_prior Sample.draws Sample.extraction Sample.store.
Proof.
  split; [left; reflexivity|]. split; [reflexivity|].
  intros [H _]. specialize (H Sample.prologue (or_introl eq_refl)).
  vm_compute in H. destruct H as [H|[]]. discriminate H.
Qed.

(** C7, as stated, fails: a draw that was taken before gives an imported
    character the id of a character of the store. *)
Lemma import_repeated_draw_collides :
  ~ import_ids_fresh Sample.draws Sample.extraction Sample.store.
Proof.
  intros H. apply (H "c-0.5"); vm_compute; tauto.
Qed.

(** C7, amended: for every pre-import state and every extraction, every
    chapter, beat, character and location the import produces is re-keyed:
    its id is "ch-", "b-", "c-" or "l-" followed by a Math.random() draw of
    this import, whatever id the extraction carried; so no produced id was
    in the store before the import whenever no id of the store is a key
    prefix followed by one of these draws. *)
Theorem import_rekeys (rand : RandomSource) (extracted : Extraction) (st : AppState) :
  (forall id, In id (produced_ids rand extracted) ->
     exists prefix k,
       In prefix key_prefixes /\ k < draws_taken rand extracted
       /\ id = (prefix ++ rand k)%string)
  /\ ((forall prefix k,
         In prefix key_prefixes -> k < draws_taken rand extracted ->
         ~ In (prefix ++ rand k)%string (ids_of_store st)) ->
      import_ids_fresh rand extracted st).
Proof.
  split.
  - intros id. apply produced_ids_are_draws.
  - intros Hfresh id Hin.
    destruct (produced_ids_are_draws rand extracted id Hin) as [prefix [k [Hp [Hk ->]]]].
    now apply Hfresh.
Qed.

Lemma import_rekeys_witness :
  (forall prefix k,
     In prefix key_prefixes -> k < draws_taken Sample.draws Sample.extraction ->
     ~ In (prefix ++ Sample.draws k)%string
         (ids_of_store (setCharacters [] Sample.store)))
  /\ import_ids_fresh Sample.draws Sample.extraction (setCharacters [] Sample.store).
Proof.
  assert (H : forall prefix k,
             In prefix key_prefixes -> k < draws_taken Sample.draws Sample.extraction ->
             ~ In (prefix ++ Sample.draws k)%string
                 (ids_of_store (setCharacters [] Sample.store))).
  { intros prefix k Hp Hk Hin. change (k < 3) in Hk.
    destruct k as [|[|[|k]]]; [| | |lia];
      simpl in Hp; decompose [or] Hp; try contradiction; subst prefix;
      vm_compute in Hin; decompose [or] Hin; try contradiction; discriminate. }
  split; [exact H|].
  exact (proj2 (import_rekeys Sample.draws Sample.extraction
                  (setCharacters [] Sample.store)) H).
Defined.

(** ** The detector *)

Lemma length_nonneg (text : string) : (0 <= JS.length text)%Z.
Proof. unfold JS.length. lia. Qed.

Lemma sentinel_guard_iff (text : string) :
  sentinel_guard text = true
  <-> (50 < JS.length text /\ JS.length text mod 350 < 20)%Z.
Proof.
  unfold sentinel_guard.
  rewrite andb_true_iff, !Z.ltb_lt.
  rewrite Z.rem_mod_nonneg by (try apply length_nonneg; lia).
  reflexivity.
Qed.

Lemma sentinelCheck_requests (P : Platform) (ai : Gateway) (text : string) (st : AppState) :
  snd (sentinelCheck P ai text st)
  = if sentinel_guard text
    then [chatWithInkwell_request [] (sentinel_message P st) (settings st) (lore st)
            (chapters st)]
    else [].
Proof.
  unfold sentinelCheck, sentinelCheck_start.
  destruct (sentinel_guard text); [|reflexivity].
  destruct (sentinelCheck_resume P _ st). reflexivity.
Qed.

(** C5: for every text, sentinelCheck issues a detection request if and
    only if the length of the text is greater than 50 and its length mod
    350 is less than 20; it issues none for a length of at most 50, none
    for length 370, and one for length 369. *)
Theorem sentinelCheck_fires_iff (P : Platform) (ai : Gateway) (text : string) (st : AppState) :
  (snd (sentinelCheck P ai text st) <> []
   <-> (50 < JS.length text /\ JS.length text mod 350 < 20)%Z)
  /\ ((JS.length text <= 50)%Z -> snd (sentinelCheck P ai text st) = [])
  /\ (JS.length text = 370%Z -> snd (sentinelCheck P ai text st) = [])
  /\ (JS.length text = 369%Z ->
      snd (sentinelCheck P ai text st)
      = [chatWithInkwell_request [] (sentinel_message P st) (settings st) (lore st)
           (chapters st)]).
Proof.
  rewrite sentinelCheck_requests. split; [split|split; [|split]].
  - intros H. apply sentinel_guard_iff.
    destruct (sentinel_guard text); [reflexivity|now elim H].
  - intros H. apply sentinel_guard_iff in H. rewrite H. discriminate.
  - intros H. destruct (sentinel_guard text) eqn:E; [|reflexivity].
    apply sentinel_guard_iff in E. lia.
  - intros H. unfold sentinel_guard. rewrite H. reflexivity.
  - intros H. unfold sentinel_guard. rewrite H. reflexivity.
Qed.

Lemma sentinelCheck_fires_iff_witness :
  snd (sentinelCheck Sample.platform Sample.gateway_down (Sample.prose 50) Sample.store) = []
  /\ snd (sentinelCheck Sample.platform Sample.gateway_down (Sample.prose 370) Sample.store) = []
  /\ snd (sentinelCheck Sample.platform Sample.gateway_down (Sample.prose 369) Sample.store)
     = [chatWithInkwell_request [] (sentinel_message Sample.platform Sample.store)
          (settings Sample.store) (lore Sample.store) (chapters Sample.store)].
Proof.
  split; [|split].
  - apply (proj1 (proj2 (sentinelCheck_fires_iff Sample.platform Sample.gateway_down
                           (Sample.prose 50) Sample.store))).
    vm_compute. discriminate.
  - apply (proj1 (proj2 (proj2 (sentinelCheck_fires_iff Sample.platform
                                  Sample.gateway_down (Sample.prose 370) Sample.store)))).
    vm_compute. reflexivity.
  - apply (proj2 (proj2 (proj2 (sentinelCheck_fires_iff Sample.platform
                                  Sample.gateway_down (Sample.prose 369) Sample.store)))).
    vm_compute. reflexivity.
Defined.

Lemma sentinelCheck_resume_fail_silent (P : Platform)
    (r : Outcome GenerateContentResponse) (st : AppState) :
  detection_fails P r -> sentinelCheck_resume P r st = (st, Fulfilled tt).
Proof.
  unfold detection_fails, sentinelCheck_resume, sentinel_try.
  destruct r as [response|e]; simpl; [|reflexivity].
  unfold parse. destruct (JSON_parse P (or_else (rs_text response) "{}")) as [data|];
    simpl; [|reflexivity].
  intros H. destruct (get data "found") as [found|e]; simpl; [|reflexivity].
  rewrite (H found eq_refl). reflexivity.
Qed.

(** The promise of the detector never rejects. *)
Lemma sentinelCheck_resume_never_rejects (P : Platform)
    (r : Outcome GenerateContentResponse) (st : AppState) :
  snd (sentinelCheck_resume P r st) = Fulfilled tt.
Proof.
  unfold sentinelCheck_resume.
  destruct (sentinel_try P r) as [[s|]|e]; reflexivity.
Qed.

(** C10: for every invocation of the detector whose gateway call fails,
    or returns text that is not valid JSON, or returns a value without a
    truthy found field, sentinelCheck leaves the whole state, and so the
    suggestion slot, as it was, and its promise is fulfilled: no error
    leaves it.  This holds for the state in which the answer arrives, and
    for the call as a whole. *)
Theorem sentinelCheck_fail_silent (P : Platform) (ai : Gateway) (text : string)
    (st : AppState) :
  (forall r st', detection_fails P r -> sentinelCheck_resume P r st' = (st', Fulfilled tt))
  /\ ((forall request, sentinelCheck_start P text st = Some request ->
         detection_fails P (ai request)) ->
      fst (sentinelCheck P ai text st) = (st, Fulfilled tt)
      /\ suggestedEntity (fst (fst (sentinelCheck P ai text st))) = suggestedEntity st).
Proof.
  split; [intros r st'; apply sentinelCheck_resume_fail_silent|].
  intros H. unfold sentinelCheck.
  destruct (sentinelCheck_start P text st) as [request|]; [|split; reflexivity].
  rewrite (sentinelCheck_resume_fail_silent P (ai request) st (H request eq_refl)).
  split; reflexivity.
Qed.

Lemma sentinelCheck_fail_silent_witness :
  fst (sentinelCheck Sample.platform (Sample.gateway_says "Nothing new here.")
         (Sample.prose 369) Sample.with_suggestion)
  = (Sample.with_suggestion, Fulfilled tt)
  /\ suggestedEntity
       (fst (fst (sentinelCheck Sample.platform (Sample.gateway_says "Nothing new here.")
                    (Sample.prose 369) Sample.with_suggestion)))
     = suggestedEntity Sample.with_suggestion.
Proof.
  apply (proj2 (sentinelCheck_fail_silent Sample.platform
                  (Sample.gateway_says "Nothing new here.") (Sample.prose 369)
                  Sample.with_suggestion)).
  intros request _. vm_compute. exact I.
Defined.

Example sentinelCheck_accepts_thorne :
  suggestedEntity
    (fst (fst (sentinelCheck Sample.platform (Sample.gateway_says Sample.thorne_text)
                 (Sample.prose 369) Sample.store)))
  = Some (mkSuggestedEntity (JString "character") Sample.thorne).
Proof. reflexivity. Qed.

Example sentinelCheck_null_answer :
  fst (sentinelCheck Sample.platform (Sample.gateway_says "null") (Sample.prose 369)
         Sample.store)
  = (Sample.store, Fulfilled tt).
Proof. reflexivity. Qed.

(** ** Inscribe *)

(** What the detector puts in the slot is an object: only an object has a
    truthy [found]. *)
Lemma sentinel_try_stores_object (P : Platform) (r : Outcome GenerateContentResponse)
    (suggestion : SuggestedEntity) :
  sentinel_try P r = Fulfilled (Some suggestion) ->
  exists props,
    se_data suggestion = JObject props
    /\ se_type suggestion = lookup "type" props
    /\ truthy (lookup "found" props) = true.
Proof.
  unfold sentinel_try, chatWithInkwell_response.
  destruct r as [response|e]; simpl; [|discriminate].
  destruct (parse P (or_else (rs_text response) "{}")) as [data|e]; simpl; [|discriminate].
  destruct data as [| |b|x|s|items|props]; simpl; try discriminate.
  destruct (truthy (lookup "found" props)) eqn:T; [|discriminate].
  intros [= <-]. now exists props.
Qed.

(** C6: for every outstanding character suggestion, Inscribe appends
    exactly one Character to the characters, with the id "c-" followed by
    the reading of the clock (whatever id the suggestion carries), the
    name and the description of the suggestion as they are (undefined when
    the suggestion has none), the role "Secondary" and no traits; it
    empties the suggestion slot and leaves the characters that were there,
    the locations and the chapters as they were. *)
Theorem inscribe_character (now : Z) (st : AppState) (props : list (string * JSValue)) :
  suggestedEntity st = Some (mkSuggestedEntity (JString "character") (JObject props)) ->
  characters (inscribe now st)
  = characters st
    ++ [mkCharacter ("c-" ++ Number_toString now)%string (lookup "name" props)
          "Secondary" (lookup "description" props) [] None None]
  /\ suggestedEntity (inscribe now st) = None
  /\ locations (inscribe now st) = locations st
  /\ chapters (inscribe now st) = chapters st.
Proof.
  intros Hs. unfold inscribe. rewrite Hs. simpl. repeat split.
Qed.

Lemma inscribe_character_witness :
  (characters (inscribe 1767225600000 Sample.with_suggestion)
   = [Sample.mira;
      mkCharacter "c-1767225600000" (JString "Thorne") "Secondary"
        (JString "A wandering smith") [] None None]
   /\ suggestedEntity (inscribe 1767225600000 Sample.with_suggestion) = None
   /\ locations (inscribe 1767225600000 Sample.with_suggestion) = [Sample.harbour]
   /\ chapters (inscribe 1767225600000 Sample.with_suggestion) = [Sample.prologue])
  /\ characters (inscribe 1767225600000 Sample.with_vague_suggestion)
     = [Sample.mira;
        mkCharacter "c-1767225600000" (JString "Thorne") "Secondary" JUndefined []
          None None].
Proof.
  split.
  - apply (inscribe_character 1767225600000 Sample.with_suggestion Sample.thorne_props).
    reflexivity.
  - apply (inscribe_character 1767225600000 Sample.with_vague_suggestion
             Sample.vague_props).
    reflexivity.
Defined.

(** ** triggerVisual *)





(** While the entity is still there, the answer is written to it. *)
Example triggerVisual_resume_writes :
  characters
    (fst (triggerVisual_resume character "c-0.5" (Fulfilled Sample.image_response)
            Sample.focused))
  = [mkCharacter "c-0.5" (JString "Mira") "Protagonist" (JString "A cartographer") []
       (Some "data:image/png;base64,iVBORw0KGgo=") None].
Proof. reflexivity. Qed.

(** ** updateBeatDraft *)

Lemma set_beat_draft_absent (beatId text : string) (beats : list Beat) :
  (forall bt, In bt beats -> b_id bt <> beatId) ->
  set_beat_draft beatId text beats = beats.
Proof.
  unfold set_beat_draft. induction beats as [|bt beats IH]; simpl; intros H; [reflexivity|].
  destruct (String.eqb_spec (b_id bt) beatId) as [E|E].
  - elim (H bt (or_introl eq_refl) E).
  - f_equal. apply IH. intros b Hb. apply H. now right.
Qed.

Lemma set_chapter_beat_draft_absent (chapterId beatId text : string) (chs : list Chapter) :
  (forall ch, In ch chs -> ch_id ch = chapterId ->
     forall bt, In bt (ch_beats ch) -> b_id bt <> beatId) ->
  set_chapter_beat_draft chapterId beatId text chs = chs.
Proof.
  unfold set_chapter_beat_draft. induction chs as [|ch chs IH]; simpl; intros H;
    [reflexivity|].
  f_equal.
  - destruct (String.eqb_spec (ch_id ch) chapterId) as [E|E]; [|reflexivity].
    rewrite set_beat_draft_absent by (apply (H ch (or_introl eq_refl) E)).
    now destruct ch.
  - apply IH. intros c Hc. apply H. now right.
Qed.

Lemma set_beat_draft_nth (beatId text : string) (beats : list Beat) (j : nat) (bt : Beat) :
  nth_error beats j = Some bt ->
  (b_id bt = beatId ->
   nth_error (set_beat_draft beatId text beats) j = Some (with_draft text bt))
  /\ (b_id bt <> beatId -> nth_error (set_beat_draft beatId text beats) j = Some bt).
Proof.
  intros H. unfold set_beat_draft. rewrite nth_error_map, H. simpl.
  destruct (String.eqb_spec (b_id bt) beatId) as [E|E]; split; intros E';
    try reflexivity; contradiction.
Qed.

(** C9: for every chapters state, updateBeatDraft with a chapterId that no
    chapter has, or a beatId that no beat of the chapter with that id has,
    leaves the chapters as they were; in every case the chapters stay in
    place with their ids and titles, the beats stay in place, a beat with
    the given id in a chapter with the given id gets the text as its draft
    and keeps its other fields, and every other beat and chapter is
    unchanged. *)
Theorem updateBeatDraft_chapters (P : Platform) (chapterId beatId text : string)
    (st : AppState) :
  let chs' := chapters (fst (updateBeatDraft P chapterId beatId text st)) in
  ((forall ch, In ch (chapters st) -> ch_id ch <> chapterId) -> chs' = chapters st)
  /\ ((forall ch, In ch (chapters st) -> ch_id ch = chapterId ->
         forall bt, In bt (ch_beats ch) -> b_id bt <> beatId) ->
      chs' = chapters st)
  /\ List.length chs' = List.length (chapters st)
  /\ (forall i ch, nth_error (chapters st) i = Some ch ->
        exists ch',
          nth_error chs' i = Some ch'
          /\ ch_id ch' = ch_id ch /\ ch_title ch' = ch_title ch
          /\ List.length (ch_beats ch') = List.length (ch_beats ch)
          /\ (ch_id ch <> chapterId -> ch' = ch)
          /\ forall j bt, nth_error (ch_beats ch) j = Some bt ->
               (ch_id ch = chapterId -> b_id bt = beatId ->
                nth_error (ch_beats ch') j = Some (with_draft text bt))
               /\ (ch_id ch <> chapterId \/ b_id bt <> beatId ->
                   nth_error (ch_beats ch') j = Some bt)).
Proof.
  cbn zeta. change (chapters (fst (updateBeatDraft P chapterId beatId text st)))
    with (set_chapter_beat_draft chapterId beatId text (chapters st)).
  split; [|split; [|split]].
  - intros H. apply set_chapter_beat_draft_absent.
    intros ch Hin E. elim (H ch Hin E).
  - apply set_chapter_beat_draft_absent.
  - unfold set_chapter_beat_draft. apply length_map.
  - intros i ch Hi. unfold set_chapter_beat_draft. rewrite nth_error_map, Hi. simpl.
    destruct (String.eqb_spec (ch_id ch) chapterId) as [E|E].
    + eexists. split; [reflexivity|]. simpl.
      split; [reflexivity|]. split; [reflexivity|].
      split; [unfold set_beat_draft; apply length_map|].
      split; [intros E'; contradiction|].
      intros j bt Hj. destruct (set_beat_draft_nth beatId text _ j bt Hj) as [Hy Hn].
      split; [intros _; exact Hy|]. intros [E'|E']; [contradiction|auto].
    + exists ch. repeat split; auto.
      intros E'; contradiction.
Qed.

Lemma updateBeatDraft_chapters_witness :
  chapters (fst (updateBeatDraft Sample.platform "ch-404" "b-1" "Night fell." Sample.store))
  = chapters Sample.store
  /\ chapters (fst (updateBeatDraft Sample.platform "ch-1" "b-404" "Night fell." Sample.store))
     = chapters Sample.store
  /\ exists ch',
       nth_error (chapters (fst (updateBeatDraft Sample.platform "ch-1" "b-1" "Night fell." Sample.store))) 0
       = Some ch'
       /\ nth_error (ch_beats ch') 0
          = Some (mkBeat "b-1" "Opening Beat" "What happens next?" (Some "Night fell.") None).
Proof.
  split; [|split].
  - apply (proj1 (updateBeatDraft_chapters Sample.platform "ch-404" "b-1" "Night fell." Sample.store)).
    intros ch [<-|[]]. discriminate.
  - apply (proj1 (proj2 (updateBeatDraft_chapters Sample.platform "ch-1" "b-404" "Night fell."
                           Sample.store))).
    intros ch [<-|[]] _ bt [<-|[]]. discriminate.
  - destruct (proj2 (proj2 (proj2 (updateBeatDraft_chapters Sample.platform "ch-1" "b-1" "Night fell."
                                     Sample.store)))
                0%nat Sample.prologue eq_refl)
      as [ch' [H0 [_ [_ [_ [_ Hb]]]]]].
    exists ch'. split; [exact H0|].
    exact (proj1 (Hb 0%nat _ eq_refl) eq_refl eq_refl).
Defined.

(** ** getInkwellQuote *)

Ltac quote_cases level :=
  unfold getInkwellQuote;
  destruct (Z.eqb_spec level 0); [|
  destruct (Z.ltb_spec level 20); [|
  destruct (Z.ltb_spec level 40); [|
  destruct (Z.leb_spec level 60); [|
  destruct (Z.ltb_spec level 80); [|
  destruct (Z.ltb_spec level 95); [|
  destruct (Z.eqb_spec level 100)]]]]]].

Ltac differ H := exfalso; revert H; apply String.eqb_neq; vm_compute; reflexivity.

(** The harshest quote is shown at level 100 only, the most flattering one
    at level 0 only, and the levels from 95 on other than 100 show the
    last, milder quote: the quotes do not grow harsher all the way up. *)
Theorem getInkwellQuote_bands (level : Z) :
  (getInkwellQuote level = getInkwellQuote 100 <-> level = 100%Z)
  /\ (getInkwellQuote level = getInkwellQuote 0 <-> level = 0%Z)
  /\ (getInkwellQuote level = getInkwellQuote 99
      <-> (95 <= level /\ level <> 100)%Z).
Proof.
  change (getInkwellQuote 100) with
    "This is completely hopeless. Your story is a crime against literacy. Please, start a career in plumbing immediately.".
  change (getInkwellQuote 0) with
    "You are the second coming of Shakespeare. Every word you type makes the stars in distant galaxies shine brighter just to catch a glimpse of your genius.".
  change (getInkwellQuote 99) with "I'm not angry, just profoundly disappointed.".
  split; [|split]; quote_cases level;
    (split; [intros Hq; first [lia | reflexivity | differ Hq]
            |intros Hq; first [reflexivity | lia]]).
Qed.

(** The levels of a slider from 0 to 100 fall into eight bands, each with
    a quote of its own: two levels show the same quote exactly when no band
    limit (1, 20, 40, 61, 80, 95, 100) separates them. *)
Theorem getInkwellQuote_separates (a b : Z) :
  (0 <= a <= 100)%Z -> (0 <= b <= 100)%Z ->
  (getInkwellQuote a = getInkwellQuote b
   <-> Forall (fun limit => (a < limit <-> b < limit)%Z) [1; 20; 40; 61; 80; 95; 100]%Z).
Proof.
  intros Ha Hb. split.
  - intros Hq. repeat constructor;
      revert Hq; quote_cases a; quote_cases b; intros Hq;
      first [lia | differ Hq].
  - intros Hq.
    inversion_clear Hq as [|? ? L1 Hq1]. inversion_clear Hq1 as [|? ? L2 Hq2].
    inversion_clear Hq2 as [|? ? L3 Hq3]. inversion_clear Hq3 as [|? ? L4 Hq4].
    inversion_clear Hq4 as [|? ? L5 Hq5]. inversion_clear Hq5 as [|? ? L6 Hq6].
    inversion_clear Hq6 as [|? ? L7 _].
    quote_cases a; quote_cases b; first [reflexivity | lia].
Qed.

Lemma getInkwellQuote_separates_witness :
  getInkwellQuote 41 = getInkwellQuote 60.
Proof.
  apply (proj2 (getInkwellQuote_separates 41 60 ltac:(lia) ltac:(lia))).
  repeat constructor; lia.
Defined.

(** ** The thinking overlay *)

Lemma nextThinkingIndex_range (i : Z) :
  (0 <= i < 7)%Z -> (0 <= nextThinkingIndex i < 7)%Z.
Proof.
  intros H. unfold nextThinkingIndex. cbn [THINKING_STEPS List.length Z.of_nat].
  rewrite Z.rem_mod_nonneg by lia. apply Z.mod_pos_bound. lia.
Qed.

Lemma thinkingStep_range (i : Z) :
  (0 <= i < 7)%Z -> exists step, thinkingStep i = Some step.
Proof.
  intros H. unfold thinkingStep.
  destruct (Z.ltb_spec i 0); [lia|].
  destruct (nth_error THINKING_STEPS (Z.to_nat i)) as [s|] eqn:E; [now exists s|].
  apply nth_error_None in E. simpl in E. lia.
Qed.

(** However long the overlay stays up, the index stays inside
    THINKING_STEPS, so there is always a step to show, and seven ticks
    bring the same step back. *)
Theorem thinkingIndex_always_valid (ticks : nat) :
  (exists step, thinkingStep (Nat.iter ticks nextThinkingIndex 0%Z) = Some step)
  /\ Nat.iter (ticks + 7) nextThinkingIndex 0%Z = Nat.iter ticks nextThinkingIndex 0%Z.
Proof.
  assert (R : (0 <= Nat.iter ticks nextThinkingIndex 0 < 7)%Z).
  { induction ticks as [|n IH]; simpl; [lia|]. now apply nextThinkingIndex_range. }
  split; [now apply thinkingStep_range|].
  rewrite Nat.add_comm, Nat.iter_add.
  generalize dependent (Nat.iter ticks nextThinkingIndex 0%Z). intros i Hi.
  assert (C : (i = 0 \/ i = 1 \/ i = 2 \/ i = 3 \/ i = 4 \/ i = 5 \/ i = 6)%Z) by lia.
  decompose [or] C; subst i; reflexivity.
Qed.

Lemma getInkwellQuote_bands_witness :
  getInkwellQuote 97 = getInkwellQuote 99.
Proof.
  apply (proj2 (proj2 (proj2 (getInkwellQuote_bands 97)))). lia.
Defined.

(** ** More on the detector *)

(** The detector fires exactly in the windows of twenty lengths that start
    at the positive multiples of 350; so it never fires on a text shorter
    than 350. *)
Theorem sentinel_guard_windows (text : string) :
  (sentinel_guard text = true
   <-> exists k, (1 <= k /\ 350 * k <= JS.length text < 350 * k + 20)%Z)
  /\ (sentinel_guard text = true -> (350 <= JS.length text)%Z).
Proof.
  assert (W : sentinel_guard text = true
              <-> exists k, (1 <= k /\ 350 * k <= JS.length text < 350 * k + 20)%Z).
  { rewrite sentinel_guard_iff. pose proof (length_nonneg text) as Hn. split.
    - intros [H50 Hm]. exists (JS.length text / 350)%Z.
      pose proof (Z.div_mod (JS.length text) 350 ltac:(lia)) as D.
      pose proof (Z.mod_pos_bound (JS.length text) 350 ltac:(lia)) as B.
      lia.
    - intros [k [Hk Hw]].
      assert (E : (JS.length text - 350 * k = JS.length text mod 350)%Z).
      { apply Z.mod_unique with k; lia. }
      lia. }
  split; [exact W|].
  intros H. apply W in H. destruct H as [k H]. lia.
Qed.

Lemma sentinel_guard_windows_witness :
  sentinel_guard Sample.window_text_b = true
  /\ (350 <= JS.length Sample.window_text_b)%Z.
Proof.
  assert (G : sentinel_guard Sample.window_text_b = true).
  { apply (proj2 (proj1 (sentinel_guard_windows Sample.window_text_b))).
    exists 1%Z. vm_compute. repeat split; discriminate. }
  split; [exact G|].
  exact (proj2 (sentinel_guard_windows Sample.window_text_b) G).
Defined.

Lemma getContext_same_context (s s' : WorldSettings) (lore : list LoreEntry) :
  same_context s s' -> getContext s lore = getContext s' lore.
Proof.
  intros [Hl [Hg [Ht Hp]]]. unfold getContext. now rewrite Hl, Hg, Ht, Hp.
Qed.

(** The request of the detector does not carry the text it was called on:
    two firings send the same request whenever the names of the characters
    and of the locations, the lore and the four settings of the context
    are the same, whatever the texts, the drafts and the scratchpad. *)
Theorem sentinelCheck_request_ignores_text (P : Platform) (text text' : string)
    (st st' : AppState) :
  sentinel_guard text = true ->
  sentinel_guard text' = true ->
  map c_name (characters st) = map c_name (characters st') ->
  map l_name (locations st) = map l_name (locations st') ->
  lore st = lore st' ->
  same_context (settings st) (settings st') ->
  sentinelCheck_start P text st = sentinelCheck_start P text' st'
  /\ sentinelCheck_start P text st <> None.
Proof.
  intros G G' Hc Hl Hlore Hs. unfold sentinelCheck_start. rewrite G, G'.
  split; [|discriminate].
  unfold chatWithInkwell_request, sentinel_message.
  now rewrite Hc, Hl, Hlore, (getContext_same_context _ _ _ Hs).
Qed.

Lemma sentinelCheck_request_ignores_text_witness :
  sentinelCheck_start Sample.platform Sample.window_text_a Sample.store
  = sentinelCheck_start Sample.platform Sample.window_text_b
      (setScratchpadText "Notes" (setCriticismLevel 90 Sample.store))
  /\ sentinelCheck_start Sample.platform Sample.window_text_a Sample.store <> None.
Proof.
  apply (sentinelCheck_request_ignores_text Sample.platform Sample.window_text_a Sample.window_text_b
           Sample.store (setScratchpadText "Notes" (setCriticismLevel 90 Sample.store)));
    try reflexivity.
  repeat split.
Defined.

Lemma setSuggestedEntity_same (st : AppState) :
  setSuggestedEntity (suggestedEntity st) st = st.
Proof. now destruct st. Qed.

Lemma sentinelCheck_resume_slot (P : Platform)
    (r : Outcome GenerateContentResponse) (st : AppState) :
  exists slot, sentinelCheck_resume P r st = (setSuggestedEntity slot st, Fulfilled tt).
Proof.
  unfold sentinelCheck_resume.
  destruct (sentinel_try P r) as [[s|]|e].
  - now exists (Some s).
  - exists (suggestedEntity st). now rewrite setSuggestedEntity_same.
  - exists (suggestedEntity st). now rewrite setSuggestedEntity_same.
Qed.

(** Whatever the gateway answers, the detector changes nothing but the
    suggestion slot (the chapters, characters, locations, lore, analysis,
    scratchpad and settings are as they were), and its promise is
    fulfilled. *)
Theorem sentinelCheck_resume_frame (P : Platform)
    (r : Outcome GenerateContentResponse) (st : AppState) :
  (exists slot, sentinelCheck_resume P r st = (setSuggestedEntity slot st, Fulfilled tt))
  /\ chapters (fst (sentinelCheck_resume P r st)) = chapters st
  /\ characters (fst (sentinelCheck_resume P r st)) = characters st
  /\ locations (fst (sentinelCheck_resume P r st)) = locations st
  /\ analysis (fst (sentinelCheck_resume P r st)) = analysis st.
Proof.
  destruct (sentinelCheck_resume_slot P r st) as [slot E].
  split; [now exists slot|]. rewrite E. repeat split.
Qed.

(** An answer that parses to a value with a truthy found is stored with
    its type, in place of whatever suggestion was waiting: the last
    detection wins. *)
Theorem sentinelCheck_resume_found (P : Platform) (response : GenerateContentResponse)
    (data found : JSValue) (st : AppState) :
  JSON_parse P (or_else (rs_text response) "{}") = Some data ->
  get data "found" = Fulfilled found ->
  truthy found = true ->
  exists type,
    get data "type" = Fulfilled type
    /\ sentinelCheck_resume P (Fulfilled response) st
       = (setSuggestedEntity (Some (mkSuggestedEntity type data)) st, Fulfilled tt).
Proof.
  intros Hp Hf Ht. unfold sentinelCheck_resume, sentinel_try. simpl.
  unfold parse. rewrite Hp. simpl. rewrite Hf. simpl. rewrite Ht.
  destruct data; simpl in *; try discriminate; eexists; split; reflexivity.
Qed.

Lemma sentinelCheck_resume_found_witness :
  exists type,
    get Sample.thorne "type" = Fulfilled type
    /\ sentinelCheck_resume Sample.platform
         (Fulfilled (mkResponse (Some Sample.thorne_text) [])) Sample.with_place_suggestion
       = (setSuggestedEntity (Some (mkSuggestedEntity type Sample.thorne))
            Sample.with_place_suggestion, Fulfilled tt).
Proof.
  apply (sentinelCheck_resume_found Sample.platform
           (mkResponse (Some Sample.thorne_text) []) Sample.thorne (JBool true)
           Sample.with_place_suggestion); reflexivity.
Defined.

(** ** More on Inscribe *)

(** A suggestion whose type is anything but the string "character" is
    inscribed as a Location, with the atmosphere "Atmospheric" and the
    name and description of the suggestion as they are (undefined when it
    has none); the characters are not touched and the slot is emptied. *)
Theorem inscribe_other_type (now : Z) (st : AppState) (type : JSValue)
    (props : list (string * JSValue)) :
  suggestedEntity st = Some (mkSuggestedEntity type (JObject props)) ->
  type <> JString "character" ->
  locations (inscribe now st)
  = locations st
    ++ [mkLocation ("l-" ++ Number_toString now)%string (lookup "name" props)
          "Atmospheric" (lookup "description" props) None None]
  /\ characters (inscribe now st) = characters st
  /\ chapters (inscribe now st) = chapters st
  /\ suggestedEntity (inscribe now st) = None.
Proof.
  intros Hs Hty. unfold inscribe. rewrite Hs. simpl.
  assert (E : strict_eq_string type "character" = false).
  { destruct type; simpl; try reflexivity.
    destruct (String.eqb_spec s "character") as [->|]; [now elim Hty|reflexivity]. }
  rewrite E. repeat split.
Qed.

Lemma inscribe_other_type_witness :
  locations (inscribe 1767225600000 Sample.with_place_suggestion)
  = [Sample.harbour;
     mkLocation "l-1767225600000" (JString "Greywater") "Atmospheric"
       (JString "A drowned town") None None]
  /\ characters (inscribe 1767225600000 Sample.with_place_suggestion) = [Sample.mira]
  /\ chapters (inscribe 1767225600000 Sample.with_place_suggestion) = [Sample.prologue]
  /\ suggestedEntity (inscribe 1767225600000 Sample.with_place_suggestion) = None.
Proof.
  apply (inscribe_other_type 1767225600000 Sample.with_place_suggestion
           (JString "place") Sample.place_props).
  - reflexivity.
  - discriminate.
Defined.

(** ** More on triggerVisual and on Banish Entry *)

Lemma find_character_none (id : string) (cs : list Character) :
  find (fun c => (c_id c =? id)%string) cs = None <-> ~ In id (map c_id cs).
Proof.
  induction cs as [|c cs IH]; simpl; [tauto|].
  destruct (String.eqb_spec (c_id c) id) as [E|E].
  - split; [discriminate|]. intros H. elim H. now left.
  - rewrite IH. tauto.
Qed.

Lemma find_location_none (id : string) (ls : list Location) :
  find (fun l => (l_id l =? id)%string) ls = None <-> ~ In id (map l_id ls).
Proof.
  induction ls as [|l ls IH]; simpl; [tauto|].
  destruct (String.eqb_spec (l_id l) id) as [E|E].
  - split; [discriminate|]. intros H. elim H. now left.
  - rewrite IH. tauto.
Qed.

Lemma find_entity_none (type : EntityType) (id : string) (st : AppState) :
  find_entity type id st = None <-> entity_deleted type id st.
Proof.
  destruct type; simpl.
  - rewrite <- find_character_none.
    destruct (find _ (characters st)); simpl; split; congruence.
  - rewrite <- find_location_none.
    destruct (find _ (locations st)); simpl; split; congruence.
Qed.

Lemma find_entity_id (type : EntityType) (id : string) (st : AppState) (e : Entity) :
  find_entity type id st = Some e -> entity_id e = id.
Proof.
  destruct type; simpl.
  - destruct (find _ (characters st)) as [c|] eqn:F; [|discriminate].
    intros [= <-]. apply find_some in F. destruct F as [_ F].
    now apply String.eqb_eq in F.
  - destruct (find _ (locations st)) as [l|] eqn:F; [|discriminate].
    intros [= <-]. apply find_some in F. destruct F as [_ F].
    now apply String.eqb_eq in F.
Qed.

Lemma find_first {A : Type} (f : A -> bool) (l : list A) (x : A) :
  find f l = Some x ->
  exists before after,
    l = before ++ x :: after /\ f x = true /\ forall y, In y before -> f y = false.
Proof.
  induction l as [|a l IH]; simpl; [discriminate|].
  destruct (f a) eqn:E.
  - intros [= <-]. exists [], l. repeat split; [exact E|intros y []].
  - intros H. destruct (IH H) as [before [after [-> [Hx Hb]]]].
    exists (a :: before), after. repeat split; [exact Hx|].
    intros y [<-|Hy]; auto.
Qed.

Lemma find_entity_first (type : EntityType) (id : string) (st : AppState) (e : Entity) :
  find_entity type id st = Some e -> first_entity type id st e.
Proof.
  destruct type; simpl.
  - destruct (find _ (characters st)) as [c|] eqn:F; [|discriminate].
    intros [= <-]. destruct (find_first _ _ _ F) as [before [after [E [Hc Hb]]]].
    exists before, after. split; [exact E|]. split; [now apply String.eqb_eq|].
    intros Hin. apply in_map_iff in Hin. destruct Hin as [y [Ey Hy]].
    specialize (Hb y Hy). simpl in Hb. rewrite Ey, String.eqb_refl in Hb. discriminate.
  - destruct (find _ (locations st)) as [l|] eqn:F; [|discriminate].
    intros [= <-]. destruct (find_first _ _ _ F) as [before [after [E [Hl Hb]]]].
    exists before, after. split; [exact E|]. split; [now apply String.eqb_eq|].
    intros Hin. apply in_map_iff in Hin. destruct Hin as [y [Ey Hy]].
    specialize (Hb y Hy). simpl in Hb. rewrite Ey, String.eqb_refl in Hb. discriminate.
Qed.

(** triggerVisual issues a request exactly when the collection of the
    type holds an entity with the id. When none does, nothing happens;
    when one does, the id is marked as being generated and the request is
    the one visualizeAsset builds from the first entity of the collection
    that has the id. *)
Theorem triggerVisual_start_spec (P : Platform) (type : EntityType) (id : string)
    (st : AppState) :
  (entity_deleted type id st -> triggerVisual_start P type id st = (st, None))
  /\ (entity_present type id st ->
      exists entity,
        first_entity type id st entity
        /\ triggerVisual_start P type id st
           = (setGenId (Some id) st,
              Some (visualizeAsset_request P type entity (settings st)))).
Proof.
  unfold triggerVisual_start. split.
  - intros H. apply find_entity_none in H. now rewrite H.
  - intros H. destruct (find_entity type id st) as [e|] eqn:F.
    + exists e. split; [exact (find_entity_first _ _ _ _ F)|reflexivity].
    + apply find_entity_none in F. destruct type; simpl in *; contradiction.
Qed.

Lemma triggerVisual_start_spec_witness :
  triggerVisual_start Sample.platform location "l-404" Sample.store = (Sample.store, None)
  /\ exists entity,
       first_entity location "l-7" Sample.store entity
       /\ triggerVisual_start Sample.platform location "l-7" Sample.store
          = (setGenId (Some "l-7") Sample.store,
             Some (visualizeAsset_request Sample.platform location entity
                     (settings Sample.store))).
Proof.
  split.
  - apply (proj1 (triggerVisual_start_spec Sample.platform location "l-404" Sample.store)).
    simpl. intros [H|[]]. discriminate H.
  - apply (proj2 (triggerVisual_start_spec Sample.platform location "l-7" Sample.store)).
    simpl. left. reflexivity.
Defined.

(** The request for the location of the sample store. *)
Example triggerVisual_start_harbour :
  snd (triggerVisual_start Sample.platform location "l-7" Sample.store)
  = Some (mkRequest "gemini-2.5-flash-image" (Parts ["Setting: The Harbour. Salt and tar"])
            None None (Some "16:9")).
Proof. reflexivity. Qed.

(** The URL visualizeAsset returns is the inline data of the first part
    that has any, behind the data-URL header, so it is never the empty
    string; it returns null exactly when no part has inline data. *)
Theorem first_image_spec (parts : list Part) :
  (first_image parts = None <-> Forall (fun p => inlineData p = None) parts)
  /\ (forall url, first_image parts = Some url ->
        url <> EmptyString
        /\ exists before data after,
             parts = before ++ mkPart (Some data) :: after
             /\ Forall (fun p => inlineData p = None) before
             /\ url = ("data:image/png;base64," ++ data)%string).
Proof.
  induction parts as [|p parts [IHn IHs]]; simpl.
  - split; [split; auto|discriminate].
  - destruct p as [[data|]]; simpl.
    + split.
      * split; [discriminate|]. intros H. inversion H as [|? ? Hd _]. discriminate Hd.
      * intros url [= <-]. split; [discriminate|].
        exists [], data, parts. repeat split. constructor.
    + split.
      * rewrite IHn. split; intros H; [now constructor|now inversion H].
      * intros url Hu. destruct (IHs url Hu) as [Hne [before [data [after [E [F U]]]]]].
        split; [exact Hne|].
        exists (mkPart None :: before), data, after. subst parts.
        repeat split; [now constructor|exact U].
Qed.

Lemma set_character_image_but_image (id url : string) (cs : list Character) :
  Forall2 character_but_image cs (set_character_image id url cs).
Proof.
  induction cs as [|c cs IH]; simpl; constructor; [|exact IH].
  destruct (c_id c =? id)%string; repeat split.
Qed.

Lemma set_location_image_but_image (id url : string) (ls : list Location) :
  Forall2 location_but_image ls (set_location_image id url ls).
Proof.
  induction ls as [|l ls IH]; simpl; constructor; [|exact IH].
  destruct (l_id l =? id)%string; repeat split.
Qed.

Lemma Forall2_character_refl (cs : list Character) : Forall2 character_but_image cs cs.
Proof. induction cs; constructor; auto. repeat split. Qed.

Lemma Forall2_location_refl (ls : list Location) : Forall2 location_but_image ls ls.
Proof. induction ls; constructor; auto. repeat split. Qed.

(** When the gateway has answered, in whatever way: the id is no longer
    marked as being generated, the promise rejects exactly when the
    gateway did, and the entities are the same ones in the same order,
    changed at most in their image; the chapters, the suggestion and the
    analysis are as they were. *)
Theorem triggerVisual_resume_frame (type : EntityType) (id : string)
    (r : Outcome GenerateContentResponse) (st : AppState) :
  let st' := fst (triggerVisual_resume type id r st) in
  genId st' = None
  /\ is_rejected (snd (triggerVisual_resume type id r st)) = is_rejected r
  /\ Forall2 character_but_image (characters st) (characters st')
  /\ Forall2 location_but_image (locations st) (locations st')
  /\ chapters st' = chapters st
  /\ suggestedEntity st' = suggestedEntity st
  /\ analysis st' = analysis st.
Proof.
  unfold triggerVisual_resume, visualizeAsset_response.
  destruct r as [response|e]; simpl.
  - destruct (first_image (rs_parts response)) as [url|]; [destruct type|]; simpl;
      repeat split;
      auto using Forall2_character_refl, Forall2_location_refl,
        set_character_image_but_image, set_location_image_but_image.
  - repeat split; auto using Forall2_character_refl, Forall2_location_refl.
Qed.



Lemma filter_character_absent (id : string) (cs : list Character) :
  ~ In id (map c_id (filter (fun c => negb (c_id c =? id)%string) cs)).
Proof.
  intros H. apply in_map_iff in H. destruct H as [c [E H]].
  apply filter_In in H. destruct H as [_ H]. subst id.
  now rewrite String.eqb_refl in H.
Qed.

Lemma filter_location_absent (id : string) (ls : list Location) :
  ~ In id (map l_id (filter (fun l => negb (l_id l =? id)%string) ls)).
Proof.
  intros H. apply in_map_iff in H. destruct H as [l [E H]].
  apply filter_In in H. destruct H as [_ H]. subst id.
  now rewrite String.eqb_refl in H.
Qed.



(** Once an entity is banished, triggerVisual for it issues no request and
    changes nothing, and the modal finds no entity to show. *)
Theorem banish_then_triggerVisual (P : Platform) (st : AppState) (fe : FocusedEntity) :
  focusedEntity st = Some fe ->
  triggerVisual_start P (fe_type fe) (fe_id fe) (banishEntry st) = (banishEntry st, None)
  /\ currentFocused (banishEntry st) = None.
Proof.
  intros H. split.
  - unfold triggerVisual_start.
    assert (F : find_entity (fe_type fe) (fe_id fe) (banishEntry st) = None).
    { apply find_entity_none. unfold banishEntry, entity_deleted. rewrite H.
      destruct (fe_type fe); simpl;
        [apply filter_character_absent|apply filter_location_absent]. }
    now rewrite F.
  - unfold currentFocused, banishEntry. rewrite H. reflexivity.
Qed.

Lemma banish_then_triggerVisual_witness :
  triggerVisual_start Sample.platform character "c-0.5" (banishEntry Sample.focused)
  = (banishEntry Sample.focused, None)
  /\ currentFocused (banishEntry Sample.focused) = None.
Proof.
  exact (banish_then_triggerVisual Sample.platform Sample.focused (mkFocusedEntity character "c-0.5")
           eq_refl).
Defined.

(** ** More on the import *)

Lemma rekey_beats_count (rand : RandomSource) (bs : list ExtractedBeat) (n : nat) :
  snd (rekey_beats rand n bs) = n + List.length bs
  /\ map (fun b => (b_title b, b_description b, b_draft b, b_completed b))
       (fst (rekey_beats rand n bs))
     = map (fun b => (xb_title b, xb_description b, xb_draft b, xb_completed b)) bs.
Proof.
  revert n. induction bs as [|b rest IH]; intros n; simpl; [split; [lia|reflexivity]|].
  specialize (IH (S n)). destruct (rekey_beats rand (S n) rest) as [beats n'].
  simpl in *. destruct IH as [-> ->]. split; [lia|reflexivity].
Qed.

Lemma rekey_chapters_count (rand : RandomSource) (chs : list ExtractedChapter) (n : nat) :
  snd (rekey_chapters rand n chs) = n + List.length chs + extracted_beats chs
  /\ map (fun ch => (ch_title ch,
                     map (fun b => (b_title b, b_description b, b_draft b, b_completed b))
                       (ch_beats ch)))
       (fst (rekey_chapters rand n chs))
     = map (fun ch => (xch_title ch,
                       map (fun b => (xb_title b, xb_description b, xb_draft b, xb_completed b))
                         (xch_beats ch))) chs.
Proof.
  revert n. induction chs as [|ch rest IH]; intros n; simpl.
  - split; [unfold extracted_beats; simpl; lia|reflexivity].
  - pose proof (rekey_beats_count rand (xch_beats ch) (S n)) as Hb.
    destruct (rekey_beats rand (S n) (xch_beats ch)) as [beats n1].
    specialize (IH n1). destruct (rekey_chapters rand n1 rest) as [chapters n2].
    simpl in *. destruct Hb as [-> Hb]. destruct IH as [-> IH].
    split; [unfold extracted_beats; simpl; lia|]. now rewrite Hb, IH.
Qed.

Lemma rekey_characters_count (rand : RandomSource) (cs : list ExtractedCharacter) (n : nat) :
  snd (rekey_characters rand n cs) = n + List.length cs
  /\ map (fun c => (c_name c, c_role c, c_description c, c_traits c, c_imageUrl c,
                     c_rationale c))
       (fst (rekey_characters rand n cs))
     = map (fun c => (xc_name c, xc_role c, xc_description c, [], xc_imageUrl c,
                       xc_rationale c)) cs.
Proof.
  revert n. induction cs as [|c rest IH]; intros n; simpl; [split; [lia|reflexivity]|].
  specialize (IH (S n)). destruct (rekey_characters rand (S n) rest) as [cs' n'].
  simpl in *. destruct IH as [-> ->]. split; [lia|reflexivity].
Qed.

Lemma rekey_locations_count (rand : RandomSource) (ls : list ExtractedLocation) (n : nat) :
  snd (rekey_locations rand n ls) = n + List.length ls
  /\ map (fun l => (l_name l, l_atmosphere l, l_description l, l_imageUrl l,
                     l_rationale l))
       (fst (rekey_locations rand n ls))
     = map (fun l => (xl_name l, xl_atmosphere l, xl_description l, xl_imageUrl l,
                       xl_rationale l)) ls.
Proof.
  revert n. induction ls as [|l rest IH]; intros n; simpl; [split; [lia|reflexivity]|].
  specialize (IH (S n)). destruct (rekey_locations rand (S n) rest) as [ls' n'].
  simpl in *. destruct IH as [-> ->]. split; [lia|reflexivity].
Qed.

(** An import takes one draw per chapter, beat, character and location of
    the extraction, and no other. *)
Theorem draws_taken_count (rand : RandomSource) (extracted : Extraction) :
  draws_taken rand extracted
  = List.length (or_nil (x_chapters extracted))
    + extracted_beats (or_nil (x_chapters extracted))
    + List.length (or_nil (x_characters extracted))
    + List.length (or_nil (x_locations extracted)).
Proof.
  unfold draws_taken, imported_locations, imported_characters, imported_chapters.
  destruct extracted as [[chs|] [cs|] [ls|]]; simpl;
    repeat match goal with
    | |- context [rekey_chapters rand ?n ?l] =>
        let H := fresh in
        pose proof (proj1 (rekey_chapters_count rand l n)) as H;
        destruct (rekey_chapters rand n l); simpl in H |- *; subst
    | |- context [rekey_characters rand ?n ?l] =>
        let H := fresh in
        pose proof (proj1 (rekey_characters_count rand l n)) as H;
        destruct (rekey_characters rand n l); simpl in H |- *; subst
    | |- context [rekey_locations rand ?n ?l] =>
        let H := fresh in
        pose proof (proj1 (rekey_locations_count rand l n)) as H;
        destruct (rekey_locations rand n l); simpl in H |- *; subst
    end; unfold extracted_beats; simpl; lia.
Qed.

(** The import keeps what the extraction says, in its order, and
    overwrites only the ids and the traits: the chapters after it are the
    extracted ones (when the extraction has chapters), title by title and
    beat by beat, each beat with the title, description, draft and
    completed flag it came with; the characters and locations it adds
    behind the existing ones carry the extracted fields, image and
    rationale included, the characters with no traits. *)
Theorem import_keeps_content (rand : RandomSource) (extracted : Extraction) (st : AppState) :
  (forall chs, x_chapters extracted = Some chs ->
     map (fun ch => (ch_title ch,
                     map (fun b => (b_title b, b_description b, b_draft b, b_completed b))
                       (ch_beats ch)))
       (chapters (importExtracted rand extracted st))
     = map (fun ch => (xch_title ch,
                       map (fun b => (xb_title b, xb_description b, xb_draft b, xb_completed b))
                         (xch_beats ch))) chs)
  /\ (x_chapters extracted = None ->
      chapters (importExtracted rand extracted st) = chapters st)
  /\ (exists added,
        characters (importExtracted rand extracted st) = characters st ++ added
        /\ map (fun c => (c_name c, c_role c, c_description c, c_traits c, c_imageUrl c,
                     c_rationale c))
             added
           = map (fun c => (xc_name c, xc_role c, xc_description c, [], xc_imageUrl c,
                       xc_rationale c))
               (or_nil (x_characters extracted)))
  /\ (exists added,
        locations (importExtracted rand extracted st) = locations st ++ added
        /\ map (fun l => (l_name l, l_atmosphere l, l_description l, l_imageUrl l,
                     l_rationale l)) added
           = map (fun l => (xl_name l, xl_atmosphere l, xl_description l, xl_imageUrl l,
                       xl_rationale l))
               (or_nil (x_locations extracted))).
Proof.
  rewrite importExtracted_chapters, importExtracted_characters, importExtracted_locations.
  split; [|split; [|split]].
  - intros chs H. unfold imported_chapters. rewrite H.
    pose proof (proj2 (rekey_chapters_count rand chs 0)) as Hc.
    now destruct (rekey_chapters rand 0 chs).
  - intros H. unfold imported_chapters. now rewrite H.
  - eexists. split; [reflexivity|]. unfold imported_characters.
    destruct (x_characters extracted) as [cs|]; [|reflexivity].
    pose proof (proj2 (rekey_characters_count rand cs
                         (snd (imported_chapters rand extracted)))) as Hc.
    now destruct (rekey_characters rand _ cs).
  - eexists. split; [reflexivity|]. unfold imported_locations.
    destruct (x_locations extracted) as [ls|]; [|reflexivity].
    pose proof (proj2 (rekey_locations_count rand ls
                         (snd (imported_characters rand extracted)))) as Hl.
    now destruct (rekey_locations rand _ ls).
Qed.

Lemma import_keeps_content_witness :
  map (fun ch => (ch_title ch,
                  map (fun b => (b_title b, b_description b, b_draft b, b_completed b))
                    (ch_beats ch)))
    (chapters (importExtracted Sample.draws Sample.rich_extraction Sample.store))
  = [("The Road", [("Departure", "She leaves at dawn", Some "Dawn broke.", Some true)])]
  /\ chapters (importExtracted Sample.draws (mkExtraction None None None) Sample.store)
     = chapters Sample.store.
Proof.
  split.
  - exact (proj1 (import_keeps_content Sample.draws Sample.rich_extraction Sample.store)
             _ eq_refl).
  - exact (proj1 (proj2 (import_keeps_content Sample.draws (mkExtraction None None None)
                           Sample.store)) eq_refl).
Defined.

(** The entities an import makes of objects that carry more than the
    schema asks for. *)
Example import_rich_extraction :
  characters (importExtracted Sample.draws Sample.rich_extraction Sample.store)
  = [Sample.mira;
     mkCharacter "c-0.5" (JString "Thorne") "Secondary" JUndefined [] None
       (Some "He mends the fence")]
  /\ locations (importExtracted Sample.draws Sample.rich_extraction Sample.store)
     = [Sample.harbour;
        mkLocation "l-0.125" (JString "Greywater") "Damp" (JString "A drowned town")
          (Some "data:image/png;base64,AAAA") None].
Proof. split; reflexivity. Qed.

Lemma rekey_beats_NoDup (rand : RandomSource) (N : nat) (bs : list ExtractedBeat) (n : nat) :
  draws_distinct rand N -> snd (rekey_beats rand n bs) <= N ->
  NoDup (map b_id (fst (rekey_beats rand n bs))).
Proof.
  intros D. revert n. induction bs as [|b rest IH]; intros n; simpl; [constructor|].
  pose proof (rekey_beats_spec rand rest (S n)) as [Hle Hids].
  specialize (IH (S n)). destruct (rekey_beats rand (S n) rest) as [beats n'].
  simpl in *. intros HN. constructor; [|now apply IH].
  intros Hin. destruct (Hids _ Hin) as [k [Hk E]].
  injection E as E. apply D in E; lia.
Qed.

Lemma rekey_chapters_NoDup (rand : RandomSource) (N : nat) (chs : list ExtractedChapter)
    (n : nat) :
  draws_distinct rand N -> snd (rekey_chapters rand n chs) <= N ->
  NoDup (map ch_id (fst (rekey_chapters rand n chs)))
  /\ Forall (fun ch => NoDup (map b_id (ch_beats ch))) (fst (rekey_chapters rand n chs)).
Proof.
  intros D. revert n. induction chs as [|ch rest IH]; intros n; simpl;
    [split; constructor|].
  pose proof (rekey_beats_spec rand (xch_beats ch) (S n)) as [Hle1 _].
  pose proof (rekey_beats_NoDup rand N (xch_beats ch) (S n) D) as Hb.
  destruct (rekey_beats rand (S n) (xch_beats ch)) as [beats n1].
  pose proof (rekey_chapters_spec rand rest n1) as [Hle2 [Hids _]].
  specialize (IH n1). destruct (rekey_chapters rand n1 rest) as [chapters n2].
  simpl in *. intros HN. destruct (IH HN) as [IH1 IH2]. split.
  - constructor; [|exact IH1].
    intros Hin. destruct (Hids _ Hin) as [k [Hk E]].
    injection E as E. apply D in E; lia.
  - constructor; [|exact IH2]. simpl. apply Hb. lia.
Qed.

Lemma rekey_characters_NoDup (rand : RandomSource) (N : nat) (cs : list ExtractedCharacter)
    (n : nat) :
  draws_distinct rand N -> snd (rekey_characters rand n cs) <= N ->
  NoDup (map c_id (fst (rekey_characters rand n cs))).
Proof.
  intros D. revert n. induction cs as [|c rest IH]; intros n; simpl; [constructor|].
  pose proof (rekey_characters_spec rand rest (S n)) as [Hle Hids].
  specialize (IH (S n)). destruct (rekey_characters rand (S n) rest) as [cs' n'].
  simpl in *. intros HN. constructor; [|now apply IH].
  intros Hin. destruct (Hids _ Hin) as [k [Hk E]].
  injection E as E. apply D in E; lia.
Qed.

Lemma rekey_locations_NoDup (rand : RandomSource) (N : nat) (ls : list ExtractedLocation)
    (n : nat) :
  draws_distinct rand N -> snd (rekey_locations rand n ls) <= N ->
  NoDup (map l_id (fst (rekey_locations rand n ls))).
Proof.
  intros D. revert n. induction ls as [|l rest IH]; intros n; simpl; [constructor|].
  pose proof (rekey_locations_spec rand rest (S n)) as [Hle Hids].
  specialize (IH (S n)). destruct (rekey_locations rand (S n) rest) as [ls' n'].
  simpl in *. intros HN. constructor; [|now apply IH].
  intros Hin. destruct (Hids _ Hin) as [k [Hk E]].
  injection E as E. apply D in E; lia.
Qed.

(** The import keeps the ids unique when its draws are: if the ids of the
    store are unique, the draws the import takes are pairwise different
    and none of them was used in an id of the store, then after the import
    every chapter, character and location id is unique in its collection
    and every beat id in its chapter. *)
Theorem import_ids_unique (rand : RandomSource) (extracted : Extraction) (st : AppState) :
  ids_unique st ->
  draws_distinct rand (draws_taken rand extracted) ->
  draws_unused rand (draws_taken rand extracted) st ->
  ids_unique (importExtracted rand extracted st).
Proof.
  intros [Uch [Uc [Ul Ub]]] D F. unfold ids_unique.
  rewrite importExtracted_chapters, importExtracted_characters, importExtracted_locations.
  destruct (imported_characters_spec rand extracted) as [Hle1 Hc].
  destruct (imported_locations_spec rand extracted) as [Hle2 Hl].
  unfold draws_taken in *.
  assert (Hchap :
    match fst (imported_chapters rand extracted) with
    | Some chs =>
        NoDup (map ch_id chs) /\ Forall (fun ch => NoDup (map b_id (ch_beats ch))) chs
    | None => True
    end).
  { unfold imported_chapters in *. destruct (x_chapters extracted) as [chs|]; [|exact I].
    pose proof (rekey_chapters_NoDup rand _ chs 0 D) as H.
    destruct (rekey_chapters rand 0 chs) as [r n]. simpl in *. apply H. lia. }
  split; [|split; [|split]].
  - destruct (fst (imported_chapters rand extracted)); [apply Hchap|exact Uch].
  - rewrite map_app. apply NoDup_app; [exact Uc| |].
    + unfold imported_characters in *.
      destruct (x_characters extracted) as [cs|]; [|constructor].
      pose proof (rekey_characters_NoDup rand _ cs
                    (snd (imported_chapters rand extracted)) D) as H.
      destruct (rekey_characters rand _ cs) as [r n]. simpl in *. apply H. lia.
    + intros id Hold Hnew. destruct (Hc id Hnew) as [k [Hk ->]].
      apply (F "c-" k); [simpl; tauto|lia|].
      unfold ids_of_store. apply in_or_app. right. apply in_or_app. right.
      apply in_or_app. now left.
  - rewrite map_app. apply NoDup_app; [exact Ul| |].
    + unfold imported_locations in *.
      destruct (x_locations extracted) as [ls|]; [|constructor].
      pose proof (rekey_locations_NoDup rand _ ls
                    (snd (imported_characters rand extracted)) D) as H.
      destruct (rekey_locations rand _ ls) as [r n]. simpl in *. apply H. lia.
    + intros id Hold Hnew. destruct (Hl id Hnew) as [k [Hk ->]].
      apply (F "l-" k); [simpl; tauto|lia|].
      unfold ids_of_store. apply in_or_app. right. apply in_or_app. right.
      apply in_or_app. now right.
  - destruct (fst (imported_chapters rand extracted)); [apply Hchap|exact Ub].
Qed.

Lemma import_ids_unique_witness :
  ids_unique (importExtracted Sample.draws Sample.extraction (setCharacters [] Sample.store)).
Proof.
  apply import_ids_unique.
  - repeat split; simpl; repeat constructor; simpl; tauto.
  - intros i j Hi Hj. change (i < 3) in Hi. change (j < 3) in Hj.
    destruct i as [|[|[|i]]]; [| | |lia]; destruct j as [|[|[|j]]]; try lia;
      intros E; first [reflexivity | discriminate E].
  - intros prefix k Hp Hk Hin. change (k < 3) in Hk.
    destruct k as [|[|[|k]]]; [| | |lia];
      simpl in Hp; decompose [or] Hp; try contradiction; subst prefix;
      vm_compute in Hin; decompose [or] Hin; try contradiction; discriminate.
Defined.

Lemma chapters_with_beats_rejects (chs : list ParsedChapter) :
  Exists (fun ch => pch_beats ch = None) chs ->
  chapters_with_beats chs = Rejected TypeError.
Proof.
  induction chs as [|ch chs IH]; intros H; [inversion H|]. simpl.
  destruct (pch_beats ch) as [beats|] eqn:E; [|reflexivity].
  inversion H as [? ? H0|? ? H0]; subst; [congruence|].
  now rewrite (IH H0).
Qed.

Lemma chapters_with_beats_fulfils (chs : list ParsedChapter) :
  Forall (fun ch => pch_beats ch <> None) chs ->
  exists chs', chapters_with_beats chs = Fulfilled chs'.
Proof.
  induction chs as [|ch chs IH]; intros H; [now exists []|]. simpl.
  inversion H as [|? ? H0 H1]; subst.
  destruct (pch_beats ch) as [beats|]; [|now elim H0].
  destruct (IH H1) as [chs' ->]. simpl. eexists. reflexivity.
Qed.

Lemma importExtracted_frame (rand : RandomSource) (extracted : Extraction) (st : AppState) :
  activeTab (importExtracted rand extracted st) = TabWrite
  /\ lore (importExtracted rand extracted st) = lore st
  /\ analysis (importExtracted rand extracted st) = analysis st
  /\ scratchpadText (importExtracted rand extracted st) = scratchpadText st
  /\ suggestedEntity (importExtracted rand extracted st) = suggestedEntity st.
Proof.
  unfold importExtracted.
  destruct (fst (imported_chapters rand extracted)),
           (fst (imported_characters rand extracted)),
           (fst (imported_locations rand extracted)); simpl; repeat split.
Qed.

(** In every case the import ends with the loading flag cleared and leaves
    the lore, the analysis, the scratchpad and the suggestion alone.  When
    the extraction fails (the gateway rejects or its text does not parse)
    nothing else changes and the promise rejects with that error.  When
    the text parses to null, or to an object one of whose chapters has no
    beats, the import throws a TypeError: nothing else changes, the write
    tab is not opened and the promise rejects.  Otherwise the write tab is
    opened and the promise is fulfilled. *)
Theorem handleFileUpload_resume_outcomes (P : Platform) (rand : RandomSource)
    (r : Outcome GenerateContentResponse) (st : AppState) :
  let res := handleFileUpload_resume P rand r st in
  loading (fst res) = false
  /\ lore (fst res) = lore st /\ analysis (fst res) = analysis st
  /\ scratchpadText (fst res) = scratchpadText st
  /\ suggestedEntity (fst res) = suggestedEntity st
  /\ (forall e, extractFromText_response P r = Rejected e ->
        res = (setLoading false st, Rejected e))
  /\ (extractFromText_response P r = Fulfilled ParsedNull ->
      res = (setLoading false st, Rejected TypeError))
  /\ (forall object chs,
        extractFromText_response P r = Fulfilled (Parsed object) ->
        p_chapters object = Some chs ->
        Exists (fun ch => pch_beats ch = None) chs ->
        res = (setLoading false st, Rejected TypeError))
  /\ (forall object,
        extractFromText_response P r = Fulfilled (Parsed object) ->
        (forall chs, p_chapters object = Some chs ->
           Forall (fun ch => pch_beats ch <> None) chs) ->
        activeTab (fst res) = TabWrite /\ snd res = Fulfilled tt).
Proof.
  cbn zeta. unfold handleFileUpload_resume.
  destruct (extractFromText_response P r) as [parsed|e]; cbn [bind].
  - assert (F : loading (fst (match read_extraction parsed with
                               | Fulfilled extracted =>
                                   (setLoading false (importExtracted rand extracted st),
                                    Fulfilled tt)
                               | Rejected e => (setLoading false st, Rejected e)
                               end)) = false
                /\ lore (fst (match read_extraction parsed with
                               | Fulfilled extracted =>
                                   (setLoading false (importExtracted rand extracted st),
                                    Fulfilled tt)
                               | Rejected e => (setLoading false st, Rejected e)
                               end)) = lore st
                /\ analysis (fst (match read_extraction parsed with
                               | Fulfilled extracted =>
                                   (setLoading false (importExtracted rand extracted st),
                                    Fulfilled tt)
                               | Rejected e => (setLoading false st, Rejected e)
                               end)) = analysis st
                /\ scratchpadText (fst (match read_extraction parsed with
                               | Fulfilled extracted =>
                                   (setLoading false (importExtracted rand extracted st),
                                    Fulfilled tt)
                               | Rejected e => (setLoading false st, Rejected e)
                               end)) = scratchpadText st
                /\ suggestedEntity (fst (match read_extraction parsed with
                               | Fulfilled extracted =>
                                   (setLoading false (importExtracted rand extracted st),
                                    Fulfilled tt)
                               | Rejected e => (setLoading false st, Rejected e)
                               end)) = suggestedEntity st).
    { destruct (read_extraction parsed) as [extracted|e]; simpl; [|repeat split].
      destruct (importExtracted_frame rand extracted st) as [_ [H1 [H2 [H3 H4]]]].
      repeat split; assumption. }
    destruct F as [F1 [F2 [F3 [F4 F5]]]].
    repeat (split; [assumption|]).
    split; [discriminate|]. split; [|split].
    + intros [= ->]. reflexivity.
    + intros object chs [= ->] Hc Hex. simpl. rewrite Hc.
      now rewrite (chapters_with_beats_rejects chs Hex).
    + intros object [= ->] Hall. unfold read_extraction.
      destruct (p_chapters object) as [chs|] eqn:Hc.
      * destruct (chapters_with_beats_fulfils chs (Hall chs eq_refl)) as [chs' ->].
        cbn [bind fst snd activeTab setLoading].
        split; [apply importExtracted_frame|reflexivity].
      * cbn [bind fst snd activeTab setLoading].
        split; [apply importExtracted_frame|reflexivity].
  - repeat split; try discriminate. now intros e' [= <-].
Qed.

Lemma handleFileUpload_resume_outcomes_witness :
  handleFileUpload_resume Sample.platform Sample.draws
    (Fulfilled (mkResponse (Some "Chapter one...") [])) Sample.store
  = (setLoading false Sample.store, Rejected SyntaxError)
  /\ handleFileUpload_resume Sample.platform Sample.draws
       (Fulfilled (mkResponse (Some "null") [])) Sample.store
     = (setLoading false Sample.store, Rejected TypeError)
  /\ handleFileUpload_resume Sample.platform Sample.draws
       (Fulfilled (mkResponse (Some Sample.beatless_text) [])) Sample.store
     = (setLoading false Sample.store, Rejected TypeError)
  /\ activeTab (fst (handleFileUpload_resume Sample.platform Sample.draws
                       (Fulfilled (mkResponse None [])) Sample.store)) = TabWrite.
Proof.
  split; [|split; [|split]].
  - apply (proj1 (proj2 (proj2 (proj2 (proj2 (proj2
             (handleFileUpload_resume_outcomes Sample.platform Sample.draws
                (Fulfilled (mkResponse (Some "Chapter one...") [])) Sample.store))))))).
    reflexivity.
  - apply (proj1 (proj2 (proj2 (proj2 (proj2 (proj2 (proj2
             (handleFileUpload_resume_outcomes Sample.platform Sample.draws
                (Fulfilled (mkResponse (Some "null") [])) Sample.store)))))))).
    reflexivity.
  - apply (proj1 (proj2 (proj2 (proj2 (proj2 (proj2 (proj2 (proj2
             (handleFileUpload_resume_outcomes Sample.platform Sample.draws
                (Fulfilled (mkResponse (Some Sample.beatless_text) []))
                Sample.store))))))))
             (mkParsedObject (Some [mkParsedChapter None "The Road" None]) None None)
             [mkParsedChapter None "The Road" None]).
    + reflexivity.
    + reflexivity.
    + constructor. reflexivity.
  - apply (proj2 (proj2 (proj2 (proj2 (proj2 (proj2 (proj2 (proj2
             (handleFileUpload_resume_outcomes Sample.platform Sample.draws
                (Fulfilled (mkResponse None [])) Sample.store))))))))
             (mkParsedObject None None None)).
    + reflexivity.
    + intros chs H. discriminate H.
Defined.

(** ** More on runAnalysis and on the requests *)

Lemma setAnalysis_same (st : AppState) : setAnalysis (analysis st) st = st.
Proof. now destruct st. Qed.

(** Whatever the gateway answers, runAnalysis ends with the loading flag
    cleared and touches nothing but the flag and the analysis: either
    analyzePlot failed, the analysis is the old one and the promise
    rejects, or it returned a result, and the analysis is that result,
    whatever the old one was. *)
Theorem runAnalysis_frame (P : Platform) (ai : Gateway) (st : AppState) :
  exists a,
    fst (runAnalysis P ai st) = setLoading false (setAnalysis a st)
    /\ ((a = analysis st /\ is_rejected (snd (runAnalysis P ai st)) = true)
        \/ (exists result,
              analyzePlot P ai (chapters st) (characters st) (locations st)
                (settings st) (lore st) = Fulfilled result
              /\ a = Some result /\ snd (runAnalysis P ai st) = Fulfilled tt)).
Proof.
  destruct (analyzePlot P ai (chapters st) (characters st) (locations st)
              (settings st) (lore st)) as [result|e] eqn:E.
  - exists (Some result). rewrite (runAnalysis_success P ai st result E).
    split; [reflexivity|]. right. now exists result.
  - exists (analysis st). rewrite setAnalysis_same.
    unfold runAnalysis, runAnalysis_start, runAnalysis_resume.
    unfold analyzePlot in E. cbn [chapters characters locations settings lore setLoading].
    rewrite E. split; [reflexivity|]. now left.
Qed.

(** The request of runAnalysis is determined by the chapters, the lore and
    the language, genre, tone and prose style of the settings: the
    characters, the locations, the scratchpad, the previous analysis and
    the three level settings do not enter it. *)
Theorem runAnalysis_request_footprint (P : Platform) (st st' : AppState) :
  chapters st = chapters st' ->
  lore st = lore st' ->
  same_context (settings st) (settings st') ->
  snd (runAnalysis_start P st) = snd (runAnalysis_start P st').
Proof.
  intros Hc Hl Hs. unfold runAnalysis_start, analyzePlot_request. cbn [snd].
  now rewrite Hc, Hl, (getContext_same_context _ _ _ Hs).
Qed.

Lemma runAnalysis_request_footprint_witness :
  snd (runAnalysis_start Sample.platform Sample.store)
  = snd (runAnalysis_start Sample.platform
           (setCriticismLevel 100 (setCharacters [] (setLocations [] Sample.store)))).
Proof.
  apply runAnalysis_request_footprint; try reflexivity. repeat split.
Defined.

(** Settings that agree on language, genre, tone and prose style give the
    same requests in all four handlers that call the gateway: the fantasy,
    tech and criticism levels never reach it. *)
Theorem requests_ignore_levels (P : Platform) (s' : WorldSettings) (st : AppState)
    (text : string) (type : EntityType) (id : string) (file : option string) :
  same_context (settings st) s' ->
  snd (runAnalysis_start P (setSettings s' st)) = snd (runAnalysis_start P st)
  /\ sentinelCheck_start P text (setSettings s' st) = sentinelCheck_start P text st
  /\ snd (triggerVisual_start P type id (setSettings s' st))
     = snd (triggerVisual_start P type id st)
  /\ snd (handleFileUpload_start file (setSettings s' st))
     = snd (handleFileUpload_start file st).
Proof.
  intros Hs. pose proof (getContext_same_context _ _ (lore st) Hs) as G.
  split; [|split; [|split]].
  - unfold runAnalysis_start, analyzePlot_request.
    cbn [snd settings lore chapters setSettings]. now rewrite G.
  - unfold sentinelCheck_start, chatWithInkwell_request, sentinel_message.
    cbn [settings lore chapters characters locations setSettings].
    destruct (sentinel_guard text); [|reflexivity]. now rewrite G.
  - unfold triggerVisual_start.
    change (find_entity type id (setSettings s' st)) with (find_entity type id st).
    now destruct (find_entity type id st).
  - unfold handleFileUpload_start. destruct file as [t|]; [|reflexivity].
    now destruct (t =? EmptyString)%string.
Qed.

Lemma requests_ignore_levels_witness :
  snd (runAnalysis_start Sample.platform (setCriticismLevel 0 Sample.store))
  = snd (runAnalysis_start Sample.platform Sample.store)
  /\ sentinelCheck_start Sample.platform Sample.window_text_b (setCriticismLevel 0 Sample.store)
     = sentinelCheck_start Sample.platform Sample.window_text_b Sample.store
  /\ snd (triggerVisual_start Sample.platform character "c-0.5" (setCriticismLevel 0 Sample.store))
     = snd (triggerVisual_start Sample.platform character "c-0.5" Sample.store)
  /\ snd (handleFileUpload_start (Some "Chapter one...") (setCriticismLevel 0 Sample.store))
     = snd (handleFileUpload_start (Some "Chapter one...") Sample.store).
Proof.
  apply (requests_ignore_levels Sample.platform
           (settings (setCriticismLevel 0 Sample.store)) Sample.store).
  repeat split.
Defined.

(** ** More on the editing handlers *)

Lemma set_beat_draft_twice (beatId t1 t2 : string) (beats : list Beat) :
  set_beat_draft beatId t2 (set_beat_draft beatId t1 beats)
  = set_beat_draft beatId t2 beats.
Proof.
  unfold set_beat_draft. rewrite map_map. apply map_ext. intros bt.
  destruct (String.eqb_spec (b_id bt) beatId) as [E|E]; simpl.
  - apply String.eqb_eq in E. now rewrite E.
  - apply String.eqb_neq in E. now rewrite E.
Qed.

Lemma set_beat_draft_swap (b1 b2 t1 t2 : string) (beats : list Beat) :
  b1 <> b2 ->
  set_beat_draft b2 t2 (set_beat_draft b1 t1 beats)
  = set_beat_draft b1 t1 (set_beat_draft b2 t2 beats).
Proof.
  intros Hne. unfold set_beat_draft. rewrite !map_map. apply map_ext. intros bt.
  destruct (String.eqb_spec (b_id bt) b1) as [E1|E1];
    destruct (String.eqb_spec (b_id bt) b2) as [E2|E2]; simpl;
    try (exfalso; congruence);
    repeat match goal with
    | |- context [(?x =? ?y)%string] =>
        destruct (String.eqb_spec x y); try (exfalso; congruence)
    end; reflexivity.
Qed.

(** On one beat the last draft written wins; drafts written to two
    different beats (of one chapter or of two) do not depend on the order
    of the two writes. *)
Theorem updateBeatDraft_order (P : Platform) (c1 b1 t1 c2 b2 t2 : string)
    (st : AppState) :
  chapters (fst (updateBeatDraft P c1 b1 t2 (fst (updateBeatDraft P c1 b1 t1 st))))
  = chapters (fst (updateBeatDraft P c1 b1 t2 st))
  /\ (c1 <> c2 \/ b1 <> b2 ->
      chapters (fst (updateBeatDraft P c2 b2 t2 (fst (updateBeatDraft P c1 b1 t1 st))))
      = chapters (fst (updateBeatDraft P c1 b1 t1 (fst (updateBeatDraft P c2 b2 t2 st))))).
Proof.
  unfold updateBeatDraft. cbn [fst chapters setChapters]. unfold set_chapter_beat_draft.
  split.
  - rewrite map_map. apply map_ext. intros ch.
    destruct (String.eqb_spec (ch_id ch) c1) as [E|E]; simpl.
    + apply String.eqb_eq in E. rewrite E. now rewrite set_beat_draft_twice.
    + apply String.eqb_neq in E. now rewrite E.
  - intros Hne. rewrite !map_map. apply map_ext. intros ch.
    destruct (String.eqb_spec (ch_id ch) c1) as [E1|E1];
      destruct (String.eqb_spec (ch_id ch) c2) as [E2|E2]; simpl;
      repeat match goal with
      | |- context [(ch_id ch =? ?y)%string] =>
          destruct (String.eqb_spec (ch_id ch) y); try (exfalso; congruence)
      end; try reflexivity.
    f_equal. apply set_beat_draft_swap. destruct Hne as [Hne|Hne]; congruence.
Qed.

Lemma updateBeatDraft_order_witness :
  chapters (fst (updateBeatDraft Sample.platform "ch-1" "b-2" "Second."
                   (fst (updateBeatDraft Sample.platform "ch-1" "b-1" "First."
                           Sample.two_beats))))
  = chapters (fst (updateBeatDraft Sample.platform "ch-1" "b-1" "First."
                     (fst (updateBeatDraft Sample.platform "ch-1" "b-2" "Second."
                             Sample.two_beats))))
  /\ chapters (fst (updateBeatDraft Sample.platform "ch-1" "b-1" "First."
                      (fst (updateBeatDraft Sample.platform "ch-1" "b-2" "Second."
                              Sample.two_beats))))
     = [mkChapter "ch-1" "Prologue"
          [mkBeat "b-1" "Opening Beat" "What happens next?" (Some "First.") None;
           mkBeat "b-2" "The Letter" "A letter arrives" (Some "Second.") None]].
Proof.
  split; [|reflexivity].
  apply (proj2 (updateBeatDraft_order Sample.platform "ch-1" "b-1" "First."
                  "ch-1" "b-2" "Second." Sample.two_beats)).
  right. discriminate.
Defined.

Lemma map_keeps {A B : Type} (g : A -> B) (f : A -> A) (l : list A) :
  (forall x, g (f x) = g x) -> map g (map f l) = map g l.
Proof.
  intros H. rewrite map_map. now apply map_ext.
Qed.

Lemma ids_unique_layout (st st' : AppState) :
  id_layout st' = id_layout st -> ids_unique st -> ids_unique st'.
Proof.
  unfold id_layout, ids_unique. intros [= Hch Hc Hl] [Uch [Uc [Ul Ub]]].
  rewrite Hc, Hl. repeat split; try assumption.
  - apply (f_equal (map fst)) in Hch. rewrite !map_map in Hch.
    change (map ch_id (chapters st') = map ch_id (chapters st)) in Hch.
    now rewrite Hch.
  - apply (f_equal (map snd)) in Hch. rewrite !map_map in Hch.
    change (map (fun ch => map b_id (ch_beats ch)) (chapters st')
            = map (fun ch => map b_id (ch_beats ch)) (chapters st)) in Hch.
    apply (Forall_map (fun ch => map b_id (ch_beats ch)) (@NoDup string)).
    rewrite Hch.
    now apply (Forall_map (fun ch => map b_id (ch_beats ch)) (@NoDup string)).
Qed.

Lemma chapters_layout_keeps (f : Chapter -> Chapter) (chs : list Chapter) :
  (forall ch, ch_id (f ch) = ch_id ch
              /\ map b_id (ch_beats (f ch)) = map b_id (ch_beats ch)) ->
  map (fun ch => (ch_id ch, map b_id (ch_beats ch))) (map f chs)
  = map (fun ch => (ch_id ch, map b_id (ch_beats ch))) chs.
Proof.
  intros H. apply map_keeps. intros ch. destruct (H ch) as [-> ->]. reflexivity.
Qed.

Lemma character_edits_keep_ids (id value : string) (cs : list Character) :
  map c_id (set_character_name id value cs) = map c_id cs
  /\ map c_id (set_character_description id value cs) = map c_id cs
  /\ map c_id (set_character_image id value cs) = map c_id cs.
Proof.
  repeat split; apply map_keeps; intros c; now destruct (c_id c =? id)%string.
Qed.

Lemma location_edits_keep_ids (id value : string) (ls : list Location) :
  map l_id (set_location_name id value ls) = map l_id ls
  /\ map l_id (set_location_description id value ls) = map l_id ls
  /\ map l_id (set_location_image id value ls) = map l_id ls.
Proof.
  repeat split; apply map_keeps; intros l; now destruct (l_id l =? id)%string.
Qed.

Ltac keep_entity_ids :=
  unfold id_layout;
  cbn [chapters characters locations setCharacters setLocations setGenId];
  repeat match goal with
  | |- context [map c_id (set_character_name ?i ?v ?l)] =>
      rewrite (proj1 (character_edits_keep_ids i v l))
  | |- context [map c_id (set_character_description ?i ?v ?l)] =>
      rewrite (proj1 (proj2 (character_edits_keep_ids i v l)))
  | |- context [map c_id (set_character_image ?i ?v ?l)] =>
      rewrite (proj2 (proj2 (character_edits_keep_ids i v l)))
  | |- context [map l_id (set_location_name ?i ?v ?l)] =>
      rewrite (proj1 (location_edits_keep_ids i v l))
  | |- context [map l_id (set_location_description ?i ?v ?l)] =>
      rewrite (proj1 (proj2 (location_edits_keep_ids i v l)))
  | |- context [map l_id (set_location_image ?i ?v ?l)] =>
      rewrite (proj2 (proj2 (location_edits_keep_ids i v l)))
  end; reflexivity.

(** The editing handlers other than Banish Entry leave every id where it
    is. *)
Lemma apply_edit_layout (P : Platform) (st : AppState) (e : Edit) :
  e <> Banish -> id_layout (apply_edit P st e) = id_layout st.
Proof.
  intros Hne. destruct e; try (now elim Hne); cbn [apply_edit].
  - unfold id_layout; simpl. f_equal. f_equal. apply chapters_layout_keeps. intros ch.
    destruct (ch_id ch =? chapterId)%string; simpl; split; try reflexivity.
    apply map_keeps. intros bt. now destruct (b_id bt =? beatId)%string.
  - unfold id_layout; simpl. f_equal. f_equal. apply chapters_layout_keeps. intros ch.
    now destruct (ch_id ch =? chapterId)%string.
  - unfold id_layout; simpl. f_equal. f_equal. apply chapters_layout_keeps. intros ch.
    destruct (ch_id ch =? chapterId)%string; simpl; split; try reflexivity.
    apply map_keeps. intros bt. now destruct (b_id bt =? beatId)%string.
  - unfold id_layout; simpl. f_equal. f_equal. apply chapters_layout_keeps. intros ch.
    destruct (ch_id ch =? chapterId)%string; simpl; split; try reflexivity.
    apply map_keeps. intros bt. now destruct (b_id bt =? beatId)%string.
  - unfold renameFocused. destruct (focusedEntity st) as [fe|]; [|reflexivity].
    destruct (fe_type fe); keep_entity_ids.
  - unfold describeFocused. destruct (focusedEntity st) as [fe|]; [|reflexivity].
    destruct (fe_type fe); keep_entity_ids.
  - reflexivity.
  - reflexivity.
  - unfold triggerVisual_resume.
    destruct (visualizeAsset_response r) as [[url|]|err]; [destruct type| |];
      cbn [fst]; keep_entity_ids.
  - destruct (sentinelCheck_resume_slot P r st) as [slot ->]. reflexivity.
  - unfold runAnalysis_resume. now destruct (analyzePlot_response P r).
Qed.

Lemma NoDup_map_filter {A B : Type} (g : A -> B) (f : A -> bool) (l : list A) :
  NoDup (map g l) -> NoDup (map g (filter f l)).
Proof.
  induction l as [|x l IH]; simpl; intros H; [constructor|].
  inversion H as [|? ? Hx Hl]; subst.
  destruct (f x); simpl; [|now apply IH].
  constructor; [|now apply IH].
  intros Hin. apply Hx. apply in_map_iff in Hin. destruct Hin as [y [E Hy]].
  apply filter_In in Hy. apply in_map_iff. exists y. tauto.
Qed.

Lemma banishEntry_ids_unique (st : AppState) : ids_unique st -> ids_unique (banishEntry st).
Proof.
  intros [Uch [Uc [Ul Ub]]]. unfold banishEntry.
  destruct (focusedEntity st) as [fe|]; [|now repeat split].
  destruct (fe_type fe); simpl; repeat split; simpl;
    try assumption; now apply NoDup_map_filter.
Qed.

(** No sequence of edits, removals and gateway answers breaks the
    uniqueness of the ids or brings an id into the store: the handlers
    that edit or remove entities, and the parts of the asynchronous
    handlers that write an image, a suggestion or an analysis, keep
    unique ids unique, and every id in the store afterwards was there
    before. *)
Theorem edits_keep_ids_unique (P : Platform) (edits : list Edit) (st : AppState) :
  (ids_unique st -> ids_unique (fold_left (apply_edit P) edits st))
  /\ (forall id, In id (ids_of_store (fold_left (apply_edit P) edits st)) ->
        In id (ids_of_store st)).
Proof.
  revert st. induction edits as [|e edits IH]; intros st; simpl; [tauto|].
  destruct (IH (apply_edit P st e)) as [IH1 IH2].
  assert (Hstep : (ids_unique st -> ids_unique (apply_edit P st e))
                  /\ forall id, In id (ids_of_store (apply_edit P st e)) ->
                                In id (ids_of_store st)).
  { assert (D : e = Banish \/ e <> Banish) by (destruct e; auto; right; discriminate).
    destruct D as [->|Hne].
    - split; [apply banishEntry_ids_unique|].
      simpl. unfold banishEntry. destruct (focusedEntity st) as [fe|]; [|tauto].
      unfold ids_of_store. intros id.
      destruct (fe_type fe); simpl; rewrite !in_app_iff, !in_map_iff;
        intros [H|[H|[[x [E H]]|[x [E H]]]]]; auto;
        try (apply filter_In in H); eauto 8; right; right; [left|right];
        exists x; tauto.
    - pose proof (apply_edit_layout P st e Hne) as L.
      split; [now apply ids_unique_layout|].
      unfold id_layout in L. injection L as Lch Lc Ll.
      unfold ids_of_store, beat_ids. intros id.
      assert (E1 : map ch_id (chapters (apply_edit P st e)) = map ch_id (chapters st)).
      { apply (f_equal (map fst)) in Lch. rewrite !map_map in Lch. exact Lch. }
      assert (E2 : flat_map (fun ch => map b_id (ch_beats ch)) (chapters (apply_edit P st e))
                   = flat_map (fun ch => map b_id (ch_beats ch)) (chapters st)).
      { rewrite !flat_map_concat_map.
        apply (f_equal (map snd)) in Lch. rewrite !map_map in Lch.
        change (map (fun ch => map b_id (ch_beats ch)) (chapters (apply_edit P st e))
                = map (fun ch => map b_id (ch_beats ch)) (chapters st)) in Lch.
        now rewrite Lch. }
      now rewrite E1, E2, Lc, Ll. }
  destruct Hstep as [S1 S2]. split; [auto|]. intros id H. auto.
Qed.

Lemma edits_keep_ids_unique_witness :
  ids_unique
    (fold_left (apply_edit Sample.platform)
       [EditDraft "ch-1" "b-1" "Night fell."; Focus character "c-0.5";
        EditName "Mira Voss"; ImageArrives character "c-0.5" (Fulfilled Sample.image_response);
        Banish; DetectionArrives (Fulfilled (mkResponse (Some Sample.thorne_text) []))]
       Sample.store).
Proof.
  apply (proj1 (edits_keep_ids_unique Sample.platform _ Sample.store)).
  repeat split; simpl; repeat constructor; simpl; tauto.
Defined.

(** ** More on the add buttons *)

(** The add buttons only append: after any sequence of clicks each
    collection is what it was followed by one new entity per click on its
    button, and every new chapter has the title "New Chapter" and exactly
    one beat, without draft. *)
Theorem add_calls_append (calls : list AddCall) (st : AppState) :
  exists new_chapters new_characters new_locations,
    chapters (add_calls calls st) = chapters st ++ new_chapters
    /\ characters (add_calls calls st) = characters st ++ new_characters
    /\ locations (add_calls calls st) = locations st ++ new_locations
    /\ List.length new_chapters = List.length (chapter_clock calls)
    /\ List.length new_characters = List.length (character_clock calls)
    /\ List.length new_locations = List.length (location_clock calls)
    /\ Forall (fun ch => ch_title ch = "New Chapter"
                         /\ exists bt, ch_beats ch = [bt] /\ b_draft bt = None)
         new_chapters.
Proof.
  revert st. induction calls as [|call calls IH]; intros st.
  - exists [], [], []. simpl. rewrite !app_nil_r. repeat split. constructor.
  - unfold add_calls in *. simpl.
    destruct (IH (add_call st call)) as [nch [nc [nl [H1 [H2 [H3 [L1 [L2 [L3 F]]]]]]]]].
    rewrite H1, H2, H3. destruct call as [t1 t2|t|t]; simpl.
    + eexists (_ :: nch), nc, nl. rewrite <- app_assoc. simpl.
      repeat split; auto. constructor; [|exact F]. simpl. split; [reflexivity|].
      eexists. split; reflexivity.
    + eexists nch, (_ :: nc), nl. rewrite <- app_assoc. simpl. repeat split; auto.
    + eexists nch, nc, (_ :: nl). rewrite <- app_assoc. simpl. repeat split; auto.
Qed.

(** ** verifyBeatCompletion *)

Lemma verifyBeatCompletion_start_short (beat : Beat) (prose : string)
    (settings : WorldSettings) :
  verifyBeatCompletion_start beat prose settings = None <-> (JS.length prose < 50)%Z.
Proof.
  unfold verifyBeatCompletion_start.
  destruct (String.eqb_spec prose EmptyString) as [->|Hne]; simpl.
  - split; [intros _; reflexivity|reflexivity].
  - destruct (Z.ltb_spec (JS.length prose) 50); split; try reflexivity;
      try discriminate; lia.
Qed.

(** Prose shorter than 50 is judged not completed without asking the
    gateway; from length 50 on exactly one request is sent (the detector,
    by contrast, needs more than 50). *)
Theorem verifyBeatCompletion_threshold (P : Platform) (ai : Gateway) (beat : Beat)
    (prose : string) (settings : WorldSettings) :
  ((JS.length prose < 50)%Z ->
   verifyBeatCompletion P ai beat prose settings = (Fulfilled false, []))
  /\ ((50 <= JS.length prose)%Z ->
      snd (verifyBeatCompletion P ai beat prose settings)
      = [verifyBeatCompletion_request beat prose settings]).
Proof.
  unfold verifyBeatCompletion. split; intros H.
  - apply (verifyBeatCompletion_start_short beat prose settings) in H. now rewrite H.
  - destruct (verifyBeatCompletion_start beat prose settings) as [rq|] eqn:E.
    + unfold verifyBeatCompletion_start in E.
      destruct ((prose =? EmptyString)%string || (JS.length prose <? 50)%Z);
        [discriminate|]. now injection E as <-.
    + apply verifyBeatCompletion_start_short in E. lia.
Qed.

Lemma verifyBeatCompletion_threshold_witness :
  verifyBeatCompletion Sample.platform Sample.gateway_down
    (mkBeat "b-1" "Opening Beat" "What happens next?" None None) (Sample.prose 49)
    initialSettings
  = (Fulfilled false, [])
  /\ snd (verifyBeatCompletion Sample.platform Sample.gateway_down
            (mkBeat "b-1" "Opening Beat" "What happens next?" None None) (Sample.prose 50)
            initialSettings)
     = [verifyBeatCompletion_request
          (mkBeat "b-1" "Opening Beat" "What happens next?" None None) (Sample.prose 50)
          initialSettings].
Proof.
  split.
  - apply (proj1 (verifyBeatCompletion_threshold Sample.platform Sample.gateway_down
                    (mkBeat "b-1" "Opening Beat" "What happens next?" None None)
                    (Sample.prose 49) initialSettings)).
    vm_compute. reflexivity.
  - apply (proj2 (verifyBeatCompletion_threshold Sample.platform Sample.gateway_down
                    (mkBeat "b-1" "Opening Beat" "What happens next?" None None)
                    (Sample.prose 50) initialSettings)).
    vm_compute. discriminate.
Defined.

(** verifyBeatCompletion never rejects, and it fails closed: it answers
    true only when the prose has at least 50 code units, the gateway
    answered, the text parsed and the parsed value has a truthy
    completed; in every other case (gateway down, malformed text, null,
    missing or falsy field) it answers false. *)
Theorem verifyBeatCompletion_fail_closed (P : Platform) (ai : Gateway) (beat : Beat)
    (prose : string) (settings : WorldSettings) :
  exists b,
    fst (verifyBeatCompletion P ai beat prose settings) = Fulfilled b
    /\ (b = true
        <-> (50 <= JS.length prose)%Z
            /\ exists response data completed,
                 ai (verifyBeatCompletion_request beat prose settings) = Fulfilled response
                 /\ JSON_parse P (or_else (rs_text response) "{}") = Some data
                 /\ get data "completed" = Fulfilled completed
                 /\ truthy completed = true).
Proof.
  unfold verifyBeatCompletion.
  destruct (verifyBeatCompletion_start beat prose settings) as [rq|] eqn:E.
  - assert (L : (50 <= JS.length prose)%Z).
    { destruct (Z.lt_ge_cases (JS.length prose) 50) as [H|H]; [|exact H].
      apply (verifyBeatCompletion_start_short beat prose settings) in H. congruence. }
    assert (R : rq = verifyBeatCompletion_request beat prose settings).
    { unfold verifyBeatCompletion_start in E.
      destruct ((prose =? EmptyString)%string || (JS.length prose <? 50)%Z);
        [discriminate|]. now injection E as <-. }
    subst rq. cbn [fst].
    unfold verifyBeatCompletion_response, verifyBeatCompletion_try.
    destruct (ai (verifyBeatCompletion_request beat prose settings))
      as [response|e] eqn:A; cbn [bind].
    + unfold parse.
      destruct (JSON_parse P (or_else (rs_text response) "{}")) as [data|] eqn:J;
        cbn [bind].
      * destruct (get data "completed") as [completed|e] eqn:G; cbn [bind].
        -- exists (truthy completed). split; [reflexivity|]. split.
           ++ intros T. split; [exact L|]. now exists response, data, completed.
           ++ intros [_ [r' [d' [c' [[= <-] [J' [G' T]]]]]]].
              rewrite J in J'. injection J' as <-.
              rewrite G in G'. now injection G' as <-.
        -- exists false. split; [reflexivity|]. split; [discriminate|].
           intros [_ [r' [d' [c' [[= <-] [J' [G' _]]]]]]].
           rewrite J in J'. injection J' as <-. rewrite G in G'. discriminate G'.
      * exists false. split; [reflexivity|]. split; [discriminate|].
        intros [_ [r' [d' [c' [[= <-] [J' _]]]]]]. rewrite J in J'. discriminate J'.
    + exists false. split; [reflexivity|]. split; [discriminate|].
      intros [_ [r' [d' [c' [D _]]]]]. discriminate D.
  - exists false. split; [reflexivity|]. split; [discriminate|].
    intros [L _]. apply verifyBeatCompletion_start_short in E. lia.
Qed.

Lemma verifyBeatCompletion_fail_closed_witness :
  fst (verifyBeatCompletion Sample.platform_completed
         (Sample.gateway_says Sample.completed_text)
         (mkBeat "b-1" "Opening Beat" "What happens next?" None None) (Sample.prose 50)
         initialSettings)
  = Fulfilled true.
Proof.
  destruct (verifyBeatCompletion_fail_closed Sample.platform_completed
              (Sample.gateway_says Sample.completed_text)
              (mkBeat "b-1" "Opening Beat" "What happens next?" None None)
              (Sample.prose 50) initialSettings) as [b [E H]].
  rewrite E. f_equal. apply H. split; [vm_compute; discriminate|].
  exists (mkResponse (Some Sample.completed_text) []),
         (JObject [("completed", JBool true)]), (JBool true).
  repeat split.
Defined.

Example verifyBeatCompletion_null :
  fst (verifyBeatCompletion Sample.platform (Sample.gateway_says "null")
         (mkBeat "b-1" "Opening Beat" "What happens next?" None None) (Sample.prose 50)
         initialSettings)
  = Fulfilled false.
Proof. reflexivity. Qed.

(** ** The titles *)

Lemma drop_last_quote_app (t : string) : drop_last_quote (t ++ DQ) = t.
Proof.
  induction t as [|c t IH]; [reflexivity|].
  simpl. simpl in IH. destruct (t ++ DQ)%string as [|c' rest] eqn:E.
  - destruct t; discriminate E.
  - now rewrite IH.
Qed.

Lemma drop_last_quote_length (s : string) :
  String.length s - 1 <= String.length (drop_last_quote s) <= String.length s.
Proof.
  induction s as [|c s IH]; simpl; [lia|].
  destruct s as [|c' s']; [destruct (is_quote c); simpl; lia|].
  simpl in *. lia.
Qed.

Lemma drop_last_quote_keeps (s : string) :
  String.get (String.length s - 1) s <> Some (ascii_of_nat 34) ->
  drop_last_quote s = s.
Proof.
  induction s as [|c s IH]; intros H; [reflexivity|].
  simpl. destruct s as [|c' s'].
  - destruct (is_quote c) eqn:Q; [|reflexivity].
    apply Ascii.eqb_eq in Q. subst c. now elim H.
  - f_equal. apply IH. simpl in *. now rewrite Nat.sub_0_r in *.
Qed.

(** The replace removes at most one quote at each end: a text wrapped in
    one pair of quotes comes back as what was between them, a text whose
    first and last code units are not quotes comes back unchanged, and
    never more than two code units are removed (so a title wrapped twice
    keeps a pair). *)
Theorem strip_quotes_spec (s : string) :
  strip_quotes (DQ ++ s ++ DQ) = s
  /\ (String.get 0 s <> Some (ascii_of_nat 34) ->
      String.get (String.length s - 1) s <> Some (ascii_of_nat 34) ->
      strip_quotes s = s)
  /\ String.length s - 2 <= String.length (strip_quotes s) <= String.length s.
Proof.
  split; [|split].
  - simpl. apply drop_last_quote_app.
  - intros Hs He. unfold strip_quotes. destruct s as [|c s]; [reflexivity|].
    destruct (is_quote c) eqn:Q.
    + apply Ascii.eqb_eq in Q. subst c. now elim Hs.
    + now apply drop_last_quote_keeps.
  - unfold strip_quotes. destruct s as [|c s]; [simpl; lia|].
    destruct (is_quote c).
    + pose proof (drop_last_quote_length s). simpl. lia.
    + pose proof (drop_last_quote_length (String c s)). lia.
Qed.

Lemma strip_quotes_spec_witness :
  strip_quotes "The Long Road" = "The Long Road".
Proof.
  apply (proj1 (proj2 (strip_quotes_spec "The Long Road"))); vm_compute; discriminate.
Defined.

(** A title that the model returns in quotes arrives without them: when
    the trimmed answer text is a title between two quotes, both title
    functions resolve to that title. *)
Theorem generateTitle_response_unquotes (String_trim : string -> string)
    (response : GenerateContentResponse) (title : string) :
  String_trim (or_else (rs_text response) EmptyString) = (DQ ++ title ++ DQ)%string ->
  generateTitle_response String_trim (Fulfilled response) = Fulfilled title.
Proof.
  intros H. unfold generateTitle_response. simpl. rewrite H.
  f_equal. simpl. apply drop_last_quote_app.
Qed.

Lemma generateTitle_response_unquotes_witness :
  generateTitle_response Sample.trim (Fulfilled (mkResponse (Some Sample.title_text) []))
  = Fulfilled "The Long Road".
Proof.
  apply (generateTitle_response_unquotes Sample.trim
           (mkResponse (Some Sample.title_text) []) "The Long Road").
  reflexivity.
Defined.

Lemma first_image_spec_witness :
  "data:image/png;base64,iVBORw0KGgo=" <> EmptyString
  /\ exists before data after,
       rs_parts Sample.image_response = before ++ mkPart (Some data) :: after
       /\ Forall (fun p => inlineData p = None) before
       /\ "data:image/png;base64,iVBORw0KGgo=" = ("data:image/png;base64," ++ data)%string.
Proof.
  apply (proj2 (first_image_spec (rs_parts Sample.image_response))).
  reflexivity.
Defined.

(** An answer without text (undefined or empty) is read as the text of the
    empty object: runAnalysis then stores what JSON.parse makes of it as
    the analysis, in place of the old one, and its promise is fulfilled. *)
Theorem runAnalysis_empty_answer (P : Platform) (ai : Gateway) (st : AppState)
    (response : GenerateContentResponse) (empty : JSValue) :
  ai (snd (runAnalysis_start P st)) = Fulfilled response ->
  rs_text response = None \/ rs_text response = Some EmptyString ->
  JSON_parse P "{}" = Some empty ->
  runAnalysis P ai st = (setLoading false (setAnalysis (Some empty) st), Fulfilled tt).
Proof.
  intros A T J. apply runAnalysis_success.
  unfold analyzePlot, analyzePlot_response. unfold runAnalysis_start in A. simpl in A.
  rewrite A. simpl. unfold parse.
  destruct T as [-> | ->]; simpl; now rewrite J.
Qed.

Lemma runAnalysis_empty_answer_witness :
  runAnalysis Sample.platform (fun _ => Fulfilled (mkResponse None [])) Sample.store
  = (setLoading false (setAnalysis (Some (JObject [])) Sample.store), Fulfilled tt).
Proof.
  apply (runAnalysis_empty_answer Sample.platform (fun _ => Fulfilled (mkResponse None []))
           Sample.store (mkResponse None []) (JObject [])).
  - reflexivity.
  - left. reflexivity.
  - reflexivity.
Defined.

(** ** consultCoWriter *)

(** Only the names of the characters enter the request, and an empty
    draft reads like a missing one. *)
Lemma consultCoWriter_request_names (stringify_names : list JSValue -> string)
    (currentBeat : Beat) (nextBeat : option Beat) (cs cs' : list Character)
    (settings : WorldSettings) (lore : list LoreEntry) (requestProse : bool) :
  map c_name cs = map c_name cs' ->
  consultCoWriter_request stringify_names currentBeat nextBeat cs settings lore requestProse
  = consultCoWriter_request stringify_names currentBeat nextBeat cs' settings lore
      requestProse.
Proof.
  intros H. unfold consultCoWriter_request. now rewrite H.
Qed.

(** There is no catch: a rejection of the gateway and a text that does not
    parse both reject the promise. *)
Lemma consultCoWriter_response_rejects (P : Platform) (r : Outcome GenerateContentResponse) :
  is_rejected (consultCoWriter_response P r) = true
  <-> match r with
      | Rejected _ => True
      | Fulfilled response => JSON_parse P (or_else (rs_text response) "{}") = None
      end.
Proof.
  unfold consultCoWriter_response, parse. destruct r as [response|e]; simpl; [|tauto].
  destruct (JSON_parse P (or_else (rs_text response) "{}")); simpl;
    split; congruence.
Qed.
